(** * toolbox: a shallow embedding of tool.go

    The Go package [toolbox] (file tool.go) is embedded function by
    function.  Go's [int], [int64] and [uint64] are integers of [Z], a Go
    [string] is a [string] of bytes, a slice is a [list] (the nil slice is
    the empty list), an [error] is a value of the type [error] below and a
    nil error is [None].  A Go function that may panic returns an
    [outcome]. *)

From Stdlib Require Import ZArith List String Ascii Bool Lia.
From Stdlib Require Import Init.Byte DecimalString Znumtheory.
From Stdlib Require Zmod.
Import ListNotations.

Open Scope string_scope.
Open Scope list_scope.
Open Scope Z_scope.

(** ** Common types *)

(** What a call does: it returns a value, or it panics. *)
Inductive outcome (A : Type) : Type :=
| Returns (a : A)
| Panics (reason : string).

Arguments Returns {A} a.
Arguments Panics {A} reason.

(** [type Tools struct] *)
Record Tools : Type := mkTools {
  MaxFileSize : Z;
  AllowedFileTypes : list string;
  MaxJSONSize : Z;
  AllowUnkownFields : bool
}.

(** [type UploadedFile struct] *)
Record UploadedFile : Type := mkUploadedFile {
  NewFileName : string;
  OriginalFileName : string;
  FileSize : Z
}.

(** Go's [error] values, by dynamic type.  [errorString] is what
    [errors.New] and [fmt.Errorf] (without [%w]) build; [io_EOF] and
    [io_ErrUnexpectedEOF] are the two sentinels of package io, compared by
    identity; the three [json_] constructors are the error types of
    encoding/json that the code tells apart with [errors.As]; [lib_error]
    is any other error of a library (os, mime/multipart, net/http), of
    which only the message is used. *)
Inductive error : Type :=
| errorString (msg : string)
| io_EOF
| io_ErrUnexpectedEOF
| json_SyntaxError (msg : string) (Offset : Z)
| json_UnmarshalTypeError (msg : string) (Field : string) (Offset : Z)
| json_InvalidUnmarshalError (msg : string)
| lib_error (msg : string).

(** [errors.New] *)
Definition errors_New (msg : string) : error := errorString msg.

(** [err.Error()] *)
Definition Error (e : error) : string :=
  match e with
  | errorString msg => msg
  | io_EOF => "EOF"
  | io_ErrUnexpectedEOF => "unexpected EOF"
  | json_SyntaxError msg _ => msg
  | json_UnmarshalTypeError msg _ _ => msg
  | json_InvalidUnmarshalError msg => msg
  | lib_error msg => msg
  end.

(** ** RandomString *)

Module Random.

(** [const randomStringSource] *)
Definition randomStringSource : string :=
  "abcdefghijklmnopqrstuvwxyzABCDEFGHIJKLMNOPQRSTUVWXYZ0123456789_+".

(** [[]rune(randomStringSource)]: the source is ASCII, one rune per byte. *)
Definition runes_of (s : string) : list ascii := list_ascii_of_string s.

(** The entropy source.  [draw k] is the value of the [k]-th call of
    [rand.Prime(rand.Reader, 64)] in this run.  [rand.Reader] never returns
    an error, so the error that the code drops ([p, _ := ...]) is nil and
    [p] is never a nil pointer. *)
Definition entropy : Type := nat -> Z.

(** What [rand.Prime(rand, bits)] returns: a prime of exactly [bits]
    bits.  (Its test of primality is exact below 2^64.) *)
Definition rand_Prime_post (bits : Z) (p : Z) : Prop :=
  Z.prime p /\ 2 ^ (bits - 1) <= p < 2 ^ bits.

(** [p.Uint64()] of a big integer: the low 64 bits of the absolute value. *)
Definition Uint64 (p : Z) : Z := Z.abs p mod 2 ^ 64.

(** [r[i]] on a slice of runes, for an index in range. *)
Definition rune_at (r : list ascii) (i : Z) : ascii :=
  nth (Z.to_nat i) r zero.

(** The loop [for i := range s], from iteration [k] of the entropy on,
    for the [len] cells that are left. *)
Fixpoint fill (r : list ascii) (draw : entropy) (k : nat) (len : nat)
  : list ascii :=
  match len with
  | O => []
  | S len' =>
      let p := draw k in
      let x := Uint64 p in
      let y := Z.of_nat (List.length r) in
      rune_at r (x mod y) :: fill r draw (S k) len'
  end.

(** [func (t *Tools) RandomString(n int) string].  [make([]rune, n)]
    panics on a negative [n].  [k] is the number of draws made before the
    call; the call makes [n] more. *)
Definition RandomString (draw : entropy) (k : nat) (n : Z) : outcome string :=
  if n <? 0 then Panics "makeslice: len out of range"
  else
    let r := runes_of randomStringSource in
    Returns (string_of_list_ascii (fill r draw k (Z.to_nat n))).

(** The characters at the even positions of a list, and at the odd ones. *)
Fixpoint evens {A : Type} (l : list A) : list A :=
  match l with
  | [] => []
  | a :: l' => a :: match l' with [] => [] | _ :: l'' => evens l'' end
  end.

Definition odds {A : Type} (l : list A) : list A :=
  match l with [] => [] | _ :: l' => evens l' end.

(** The largest prime below 2^64 that is 61 modulo 64: 2^64 - 323.  Its
    predecessor is 22090684 * 18046081 * 46273. *)
Definition prime_61 : Z := 18446744073709551293.
Definition factor_1 : Z := 18046081.
Definition factor_2 : Z := 46273.

(** [a ^ e mod n] by repeated squaring. *)
Fixpoint powmod (a : Z) (e : positive) (n : Z) : Z :=
  match e with
  | xH => a mod n
  | xO e' => let r := powmod a e' n in (r * r) mod n
  | xI e' => let r := powmod a e' n in ((r * r) mod n * a) mod n
  end.

(** No number from [d] up to [d + fuel - 1] divides [n]. *)
Fixpoint no_divisor (n d : Z) (fuel : nat) : bool :=
  match fuel with
  | O => true
  | S fuel' => negb (n mod d =? 0) && no_divisor n (d + 1) fuel'
  end.

(** Trial division of [n] by 2, ..., [fuel + 1], which is enough when
    [n] is below the square of [fuel + 2]. *)
Definition trial_division (n : Z) (fuel : nat) : bool :=
  (1 <? n) && (n <? (2 + Z.of_nat fuel) * (2 + Z.of_nat fuel))
  && no_divisor n 2 fuel.

End Random.

(** ** Slugify *)

Module Slug.

Local Open Scope N_scope.

(** A rune is a Unicode code point. *)
Definition rune : Type := N.

Definition RuneError : rune := 65533%N.

Definition bytes_of (s : string) : list N :=
  map N_of_ascii (list_ascii_of_string s).

Definition between (lo hi b : N) : bool := ((lo <=? b) && (b <=? hi))%N.

(** The table [first] of unicode/utf8 for a leading byte that is not
    ASCII: the length of the sequence and the range accepted for its
    second byte; [None] for a byte that cannot lead. *)
Definition lead (s0 : N) : option (N * (N * N)) :=
  if between 194 223 s0 then Some (2, (128, 191))
  else if (s0 =? 224)%N then Some (3, (160, 191))
  else if between 225 236 s0 then Some (3, (128, 191))
  else if (s0 =? 237)%N then Some (3, (128, 159))
  else if between 238 239 s0 then Some (3, (128, 191))
  else if (s0 =? 240)%N then Some (4, (144, 191))
  else if between 241 243 s0 then Some (4, (128, 191))
  else if (s0 =? 244)%N then Some (4, (128, 143))
  else None.

Definition cont (b : N) : N := N.land b 63.

(** [utf8.DecodeRuneInString] on a non-empty string: the rune and the
    bytes after it.  A byte that starts no valid sequence decodes to
    [RuneError] and is consumed alone. *)
Definition DecodeRune (s0 : N) (t : list N) : rune * list N :=
  if (s0 <? 128)%N then (s0, t)
  else
    match lead s0 with
    | None => (RuneError, t)
    | Some (sz, (lo, hi)) =>
        match t with
        | s1 :: t1 =>
            if negb (between lo hi s1) then (RuneError, t)
            else if (sz =? 2)%N then
              (N.lor (N.shiftl (N.land s0 31) 6) (cont s1), t1)
            else
              match t1 with
              | s2 :: t2 =>
                  if negb (between 128 191 s2) then (RuneError, t)
                  else if (sz =? 3)%N then
                    (N.lor (N.shiftl (N.land s0 15) 12)
                       (N.lor (N.shiftl (cont s1) 6) (cont s2)), t2)
                  else
                    match t2 with
                    | s3 :: t3 =>
                        if negb (between 128 191 s3) then (RuneError, t)
                        else
                          (N.lor (N.shiftl (N.land s0 7) 18)
                             (N.lor (N.shiftl (cont s1) 12)
                                (N.lor (N.shiftl (cont s2) 6) (cont s3))),
                           t3)
                    | [] => (RuneError, t)
                    end
              | [] => (RuneError, t)
              end
        | [] => (RuneError, t)
        end
    end.

(** The runes of a string, as [for _, r := range s] yields them.  The fuel
    is the number of bytes: every step consumes at least one. *)
Fixpoint decode (fuel : nat) (bs : list N) : list rune :=
  match fuel, bs with
  | S fuel', s0 :: t =>
      let (r, rest) := DecodeRune s0 t in r :: decode fuel' rest
  | _, _ => []
  end.

Definition runes (s : string) : list rune :=
  let bs := bytes_of s in decode (List.length bs) bs.

(** [utf8.AppendRune]: the bytes of one rune. *)
Definition EncodeRune (r : rune) : list N :=
  let r := if (between 55296 57343 r || (1114111 <? r)%N)%bool
           then RuneError else r in
  if (r <=? 127)%N then [r]
  else if (r <=? 2047)%N then
    [N.lor 192 (N.shiftr r 6); N.lor 128 (cont r)]
  else if (r <=? 65535)%N then
    [N.lor 224 (N.shiftr r 12); N.lor 128 (cont (N.shiftr r 6));
     N.lor 128 (cont r)]
  else
    [N.lor 240 (N.shiftr r 18); N.lor 128 (cont (N.shiftr r 12));
     N.lor 128 (cont (N.shiftr r 6)); N.lor 128 (cont r)].

(** [string(rs)] for a slice of runes. *)
Definition string_of_runes (rs : list rune) : string :=
  string_of_list_ascii (map ascii_of_N (flat_map EncodeRune rs)).

Definition is_upper (r : rune) : bool := between 65 90 r.
Definition is_lower (r : rune) : bool := between 97 122 r.
Definition is_digit (r : rune) : bool := between 48 57 r.
Definition dash : rune := 45%N.

Section WithCaseTable.

(** [unicode.To(unicode.LowerCase, r)] for a rune above ASCII: the case
    table of package unicode, which is not part of this package. *)
Variable To_LowerCase : rune -> rune.

(** [unicode.ToLower] *)
Definition unicode_ToLower (r : rune) : rune :=
  if (r <=? 127)%N then
    if is_upper r then (r + 32)%N else r
  else To_LowerCase r.

(** [strings.ToLower]: [strings.Map(unicode.ToLower, s)]; its shortcut for
    an ASCII string gives the same bytes.  The result is kept as runes:
    the regular expression reads it rune by rune. *)
Definition ToLower (s : string) : list rune :=
  map unicode_ToLower (runes s).

(** The class of [regexp.MustCompile(`[^a-z\d]+`)]: a rune that is neither
    in a-z nor an ASCII digit. *)
Definition re_class (r : rune) : bool := negb (is_lower r || is_digit r).

(** [re.ReplaceAllString(src, "-")]: from left to right, every match of
    the class repeated greedily is replaced by one dash.  [inrun] says
    that the previous rune belongs to the match being replaced. *)
Fixpoint ReplaceAll (inrun : bool) (src : list rune) : list rune :=
  match src with
  | [] => []
  | c :: rest =>
      if re_class c then
        if inrun then ReplaceAll true rest
        else dash :: ReplaceAll true rest
      else c :: ReplaceAll false rest
  end.

Definition ReplaceAllString (src : list rune) : list rune :=
  ReplaceAll false src.

(** [strings.TrimLeft(s, "-")] *)
Fixpoint TrimLeft (s : list rune) : list rune :=
  match s with
  | c :: rest => if (c =? dash)%N then TrimLeft rest else s
  | [] => []
  end.

(** [strings.TrimRight(s, "-")] *)
Definition TrimRight (s : list rune) : list rune := rev (TrimLeft (rev s)).

(** [strings.Trim(s, "-")] *)
Definition Trim (s : list rune) : list rune := TrimRight (TrimLeft s).

(** [func (t *Tools) Slugify(s string) (string, error)] *)
Definition Slugify (s : string) : string * option error :=
  if (String.length s =? 0)%nat then
    ("", Some (errors_New "empty string"))
  else
    let slug := Trim (ReplaceAllString (ToLower s)) in
    if (List.length slug =? 0)%nat then
      ("", Some (errors_New "after removing character, slug is zero leng"))
    else (string_of_runes slug, None).

(** *** The slug as the specification words it *)

(** The maximal runs of a list: consecutive elements that agree on [p],
    each run with its value of [p]. *)
Fixpoint runs (p : rune -> bool) (l : list rune) : list (bool * list rune) :=
  match l with
  | [] => []
  | c :: rest =>
      match runs p rest with
      | (b, seg) :: more =>
          if Bool.eqb (p c) b then (b, c :: seg) :: more
          else (p c, [c]) :: (b, seg) :: more
      | [] => [(p c, [c])]
      end
  end.

Definition outside (r : rune) : bool := negb (is_lower r || is_digit r).

(** Every maximal run of characters outside [a-z0-9] becomes one dash. *)
Definition spec_replace (l : list rune) : list rune :=
  flat_map (fun run : bool * list rune =>
              if fst run then [dash] else snd run) (runs outside l).

(** Leading dashes removed. *)
Fixpoint spec_trim_leading (l : list rune) : list rune :=
  match l with
  | c :: rest => if (c =? dash)%N then spec_trim_leading rest else c :: rest
  | [] => []
  end.

(** Trailing dashes removed. *)
Fixpoint spec_trim_trailing (l : list rune) : list rune :=
  match l with
  | c :: rest =>
      match spec_trim_trailing rest with
      | [] => if (c =? dash)%N then [] else [c]
      | kept => c :: kept
      end
  | [] => []
  end.

Definition spec_slug (s : string) : list rune :=
  spec_trim_trailing
    (spec_trim_leading (spec_replace (map unicode_ToLower (runes s)))).

End WithCaseTable.

(** Neighbours differ. *)
Fixpoint alternate (flags : list bool) : Prop :=
  match flags with
  | a :: (b :: _) as rest => a <> b /\ alternate rest
  | _ => True
  end.

(** The two failures of [Slugify], as the specification names them. *)
Definition EmptyInput : error := errors_New "empty string".
Definition EmptyResult : error :=
  errors_New "after removing character, slug is zero leng".

(** A case table that changes nothing: right for every rune without a
    lower-case form, such as the katakana of the tests. *)
Definition caseless (r : rune) : rune := r.

End Slug.

(** ** ReadJSON *)

Module Json.

(** [%d] of [fmt] *)
Definition fmt_d (z : Z) : string := NilZero.string_of_int (Z.to_int z).

(** [strings.HasPrefix(s, prefix)] *)
Definition HasPrefix (s prefix : string) : bool := String.prefix prefix s.

(** [strings.TrimPrefix(s, prefix)] *)
Definition TrimPrefix (s prefix : string) : string :=
  if HasPrefix s prefix
  then substring (String.length prefix)
         (String.length s - String.length prefix) s
  else s.

(** [errors.Is(err, target)] for the sentinels of package io; none of the
    errors here wraps another. *)
Definition errors_Is (err target : error) : bool :=
  match err, target with
  | io_EOF, io_EOF => true
  | io_ErrUnexpectedEOF, io_ErrUnexpectedEOF => true
  | _, _ => false
  end.

(** [errors.As(err, &syntaxError)]: the offset of a syntax error. *)
Definition As_SyntaxError (err : error) : option Z :=
  match err with json_SyntaxError _ off => Some off | _ => None end.

(** [errors.As(err, &unmarshalTypeError)]: its field and offset. *)
Definition As_UnmarshalTypeError (err : error) : option (string * Z) :=
  match err with
  | json_UnmarshalTypeError _ fld off => Some (fld, off)
  | _ => None
  end.

(** [errors.As(err, &invalidUnmarshalError)] *)
Definition As_InvalidUnmarshalError (err : error) : bool :=
  match err with json_InvalidUnmarshalError _ => true | _ => false end.

Definition quote_char : string := String (ascii_of_nat 34) EmptyString.

(** The error that the decoder of encoding/json reports for an object key
    [key] that the target has no field for, when unknown fields are
    disallowed: [fmt.Errorf("json: unknown field %q", key)]; [Quote] is
    [strconv.Quote]. *)
Definition json_unknown_field (Quote : string -> string) (key : string)
  : error :=
  errorString ("json: unknown field " ++ Quote key).

(** The error of [http.MaxBytesReader] past the limit. *)
Definition http_body_too_large : error :=
  lib_error "http: request body too large".

(** The limit that [ReadJSON] puts on the body. *)
Definition limit (t : Tools) : Z :=
  if MaxJSONSize t =? 0 then 1024 * 1024 else MaxJSONSize t.

Section WithDecoder.

(** [%q] of [fmt] on a string, that is [strconv.Quote]. *)
Variable Quote : string -> string.

(** Request bodies, and the decoder of encoding/json on them.
    [json_Decode maxBytes strict body k] is the error that the [k]-th call
    of [dec.Decode] returns (calls are counted from 0), for a decoder that
    reads [body] through [http.MaxBytesReader(w, body, maxBytes)], after
    [dec.DisallowUnknownFields()] when [strict].  The first call decodes
    into the caller's [data], the second into an empty struct. *)
Variable Body : Type.
Variable json_Decode : Z -> bool -> Body -> nat -> option error.

(** The [switch] that rewrites the error of the first [Decode]. *)
Definition rewrite_error (maxBytes : Z) (err : error) : error :=
  match As_SyntaxError err with
  | Some Offset =>
      errorString ("body contains badly-formed JSON (at character "
                   ++ fmt_d Offset ++ ")")
  | None =>
  if errors_Is err io_ErrUnexpectedEOF then
    errors_New "body contains badly-formed JSON"
  else
  match As_UnmarshalTypeError err with
  | Some (Field, Offset) =>
      if negb (Field =? "")%string then
        errorString ("body contains incorrect JSON type for field "
                     ++ Quote Field)
      else
        errorString ("body contains incorrect JSON type (at: "
                     ++ fmt_d Offset ++ ")")
  | None =>
  if errors_Is err io_EOF then
    errors_New "body must not be empty"
  else if HasPrefix (Error err) "json:unkown field" then
    let fieldName := TrimPrefix (Error err) "json:unkown field" in
    errorString ("body containes unknown key " ++ fieldName)
  else if (Error err =? "http: request body too large")%string then
    errorString ("body must not be larger than " ++ fmt_d maxBytes
                 ++ " bytes")
  else if As_InvalidUnmarshalError err then
    errorString ("error unmarshaling JSON: " ++ Error err)
  else err
  end
  end.

(** [func (t *Tools) ReadJSON(w, r, data) error], on the body of [r]. *)
Definition ReadJSON (t : Tools) (body : Body) : option error :=
  let maxBytes := 1024 * 1024 in
  let maxBytes :=
    if negb (MaxJSONSize t =? 0) then MaxJSONSize t else maxBytes in
  let dec := json_Decode maxBytes (negb (AllowUnkownFields t)) body in
  match dec 0%nat with
  | Some err => Some (rewrite_error maxBytes err)
  | None =>
      match dec 1%nat with
      | Some io_EOF => None
      | _ => Some (errors_New "body must contain only one JSON value")
      end
  end.

(** The classification that the specification names [UnknownField]: the
    message that names the unknown key. *)
Definition UnknownField (err : error) : Prop :=
  exists name, Error err = ("body containes unknown key " ++ name)%string.

End WithDecoder.

(** A body given by what the decoder finds in it: the errors of the
    successive calls of [Decode], with unknown fields disallowed and with
    unknown fields allowed; past the end of the script the stream is at
    its end, and [Decode] returns [io.EOF]. *)
Record script : Type := mkScript {
  strict_calls : list (option error);
  lax_calls : list (option error)
}.

Definition scripted_Decode (maxBytes : Z) (strict : bool) (b : script)
    (k : nat) : option error :=
  nth k (if strict then strict_calls b else lax_calls b) (Some io_EOF).

(** [strconv.Quote] on a string of letters and digits. *)
Definition Quote_plain (s : string) : string :=
  (quote_char ++ s ++ quote_char)%string.

(** The body [{"foo2":"1"}] of the tests, read into a struct with the one
    field foo. *)
Definition body_foo2 : script :=
  mkScript [Some (json_unknown_field Quote_plain "foo2")] [None].

(** The body [{"foo":"2"}{"a":"b"}] of the tests: the first value decodes;
    the second is decoded into an empty struct, which has no field a. *)
Definition body_two_values : script :=
  mkScript [None; Some (json_unknown_field Quote_plain "a")] [None; None].

(** The body [{"foo":"bar"}]. *)
Definition body_one_value : script := mkScript [None] [None].

Definition strict_tools : Tools := mkTools 0 [] 1024 false.
Definition lax_tools : Tools := mkTools 0 [] 1024 true.

End Json.

(** ** UploadFiles and UploadOneFile *)

Module Upload.

(** [multipart.FileHeader]: the file name and the bytes of one uploaded
    part, and the faults of the input and output on it in this run:
    [hdr.Open()] failing, [infile.Read] failing, [infile.Seek] failing,
    and [io.Copy] failing after it has written some bytes. *)
Record FileHeader : Type := mkFileHeader {
  Filename : string;
  content : list byte;
  open_fault : option error;
  read_fault : option error;
  seek_fault : option error;
  copy_fault : option (nat * error)
}.

(** [*http.Request]: what [r.ParseMultipartForm(maxMemory)] returns, and
    [r.MultipartForm.File], a map from field names to headers, as the list
    of its entries in the order in which [range] visits them. *)
Record Request : Type := mkRequest {
  ParseMultipartForm : Z -> option error;
  MultipartForm_File : list (string * list FileHeader)
}.

Definition handle : Type := nat.

(** The file system and the process: the directories and the regular
    files that exist (the first entry of a path is the current one), the
    handles that are open, the next handle to give out, and the number of
    calls of [rand.Prime] made so far. *)
Record World : Type := mkWorld {
  dirs : list string;
  files : list (string * list byte);
  open_handles : list handle;
  next_handle : handle;
  drawn : nat
}.

(** What the package takes from its libraries and its environment. *)
Record Lib : Type := mkLib {
  DetectContentType : list byte -> string;      (* http.DetectContentType *)
  EqualFold : string -> string -> bool;         (* strings.EqualFold *)
  filepath_Join : string -> string -> string;   (* filepath.Join *)
  (* os.Stat failing with an error other than "does not exist" *)
  Stat_fault : string -> option error;
  (* os.MkdirAll failing, with the directories it made before *)
  MkdirAll_fault : string -> option (list string * error);
  Create_fault : string -> option error;        (* os.Create failing *)
  draw : Random.entropy                         (* rand.Prime *)
}.

Definition set_MaxFileSize (t : Tools) (v : Z) : Tools :=
  mkTools v (AllowedFileTypes t) (MaxJSONSize t) (AllowUnkownFields t).

Definition set_dirs (w : World) (d : list string) : World :=
  mkWorld d (files w) (open_handles w) (next_handle w) (drawn w).

Definition set_files (w : World) (f : list (string * list byte)) : World :=
  mkWorld (dirs w) f (open_handles w) (next_handle w) (drawn w).

Definition set_drawn (w : World) (k : nat) : World :=
  mkWorld (dirs w) (files w) (open_handles w) (next_handle w) k.

(** A new handle is opened. *)
Definition acquire (w : World) : handle * World :=
  let h := next_handle w in
  (h, mkWorld (dirs w) (files w) (h :: open_handles w) (S h) (drawn w)).

(** [f.Close()].  On a nil [*os.File] it returns [os.ErrInvalid], which
    the code drops, and closes nothing. *)
Definition Close (f : option handle) (w : World) : World :=
  match f with
  | None => w
  | Some h =>
      mkWorld (dirs w) (files w) (remove Nat.eq_dec h (open_handles w))
        (next_handle w) (drawn w)
  end.

(** The deferred calls of a function run when it leaves, the last one
    deferred first; [defers] lists the receivers, the last deferred at
    the head. *)
Definition run_defers (defers : list (option handle)) (w : World) : World :=
  fold_left (fun w f => Close f w) defers w.

(** [hdr.Open()] *)
Definition Open (hdr : FileHeader) (w : World) : (handle + error) * World :=
  match open_fault hdr with
  | Some err => (inr err, w)
  | None => let (h, w) := acquire w in (inl h, w)
  end.

(** [make([]byte, n)] *)
Definition make_bytes (n : nat) : list byte := repeat x00 n.

(** [infile.Read(buff)] with the stream at offset [pos]: the buffer after
    the call, the number of bytes read and the error.  At the end of the
    stream nothing is read and the error is [io.EOF]; otherwise the bytes
    that are there, at most [len(buff)], overwrite the head of the
    buffer. *)
Definition Read (hdr : FileHeader) (pos : nat) (buff : list byte)
  : list byte * nat * option error :=
  match read_fault hdr with
  | Some err => (buff, 0%nat, Some err)
  | None =>
      match skipn pos (content hdr) with
      | [] => (buff, 0%nat, Some io_EOF)
      | rest =>
          let got := firstn (List.length buff) rest in
          (got ++ skipn (List.length got) buff, List.length got, None)
      end
  end.

(** [infile.Seek(0, 0)]: the new offset and the error. *)
Definition Seek (hdr : FileHeader) (pos : nat) : nat * option error :=
  match seek_fault hdr with
  | Some err => (pos, Some err)
  | None => (0%nat, None)
  end.

(** [filepath.Ext]: the suffix from the last dot of the last element of
    the path, scanning back from the end; [rpath] is the path reversed. *)
Fixpoint Ext_scan (rpath : list ascii) (suffix : list ascii) : list ascii :=
  match rpath with
  | [] => []
  | c :: before =>
      if Ascii.eqb c "/" then []
      else if Ascii.eqb c "." then c :: suffix
      else Ext_scan before (c :: suffix)
  end.

Definition filepath_Ext (path : string) : string :=
  string_of_list_ascii (Ext_scan (rev (list_ascii_of_string path)) []).

Definition lookup_file (path : string) (fs : list (string * list byte))
  : option (list byte) :=
  match find (fun e => (fst e =? path)%string) fs with
  | Some e => Some (snd e)
  | None => None
  end.

(** The parents of a path: for every slash of the path that is not its
    first character, the path before that slash.  [before] is the part of
    the path already scanned. *)
Fixpoint parents_scan (before rest : list ascii) : list string :=
  match rest with
  | [] => []
  | c :: rest' =>
      let more := parents_scan (before ++ [c]) rest' in
      if Ascii.eqb c "/" then
        match before with
        | [] => more
        | _ => string_of_list_ascii before :: more
        end
      else more
  end.

Definition parents (path : string) : list string :=
  parents_scan [] (list_ascii_of_string path).

(** A path names something: a directory or a regular file. *)
Definition path_exists (path : string) (w : World) : bool :=
  existsb (fun d => (d =? path)%string) (dirs w)
  || existsb (fun e => (fst e =? path)%string) (files w).

Section WithLib.

Variable L : Lib.

(** [os.Stat(path)] followed by [os.IsNotExist(err)].  The error of
    [os.Stat] is nil for a directory and for a regular file, and "does not
    exist" when the path names nothing; when [os.Stat] fails for another
    reason, [os.IsNotExist] is false. *)
Definition Stat_IsNotExist (path : string) (w : World) : bool :=
  match Stat_fault L path with
  | Some _ => false
  | None => negb (path_exists path w)
  end.

(** [os.MkdirAll(path, mode)]: makes the directory and the parents that
    are missing; when it fails, the directories that it made before the
    failure stay. *)
Definition MkdirAll (path : string) (w : World) : option error * World :=
  match MkdirAll_fault L path with
  | Some (made, err) => (Some err, set_dirs w (made ++ dirs w))
  | None => (None, set_dirs w (path :: parents path ++ dirs w))
  end.

(** [func (t *Tools) CreateDirIfNotExist(path string) error] *)
Definition CreateDirIfNotExist (path : string) (w : World)
  : option error * World :=
  if Stat_IsNotExist path w then
    match MkdirAll path w with
    | (Some err, w) => (Some err, w)
    | (None, w) => (None, w)
    end
  else (None, w).

(** [os.Create(path)]: the file is created or truncated. *)
Definition Create (path : string) (w : World) : (handle + error) * World :=
  match Create_fault L path with
  | Some err => (inr err, w)
  | None =>
      let (h, w) := acquire w in
      (inl h, set_files w ((path, []) :: files w))
  end.

(** [io.Copy(outfile, infile)] with the stream at offset [pos] and
    [outfile] open on [path]: the bytes written and the error. *)
Definition Copy (path : string) (hdr : FileHeader) (pos : nat) (w : World)
  : Z * option error * World :=
  let data := skipn pos (content hdr) in
  match copy_fault hdr with
  | Some (k, err) =>
      let written := firstn k data in
      (Z.of_nat (List.length written), Some err,
       set_files w ((path, written) :: files w))
  | None =>
      (Z.of_nat (List.length data), None,
       set_files w ((path, data) :: files w))
  end.

(** What the function literal in the loop returns. *)
Definition part_return : Type := list UploadedFile * option error.

(** The function literal called on every header.  [uploadeFiles] is its
    parameter.  [uploadedFiles] is the variable of [UploadFiles] that it
    captures: in the literal the name still means that variable, since the
    variables that [:=] declares from its result are in scope only after
    the statement.  The result is what the literal returns, the captured
    variable after the call and the world after the call. *)
Definition upload_part (t : Tools) (uploadDir : string) (renameFile : bool)
    (hdr : FileHeader) (uploadeFiles : list UploadedFile)
    (uploadedFiles : list UploadedFile) (w : World)
  : outcome part_return * list UploadedFile * World :=
  match Open hdr w with
  | (inr err, w) => (Returns ([], Some err), uploadedFiles, w)
  | (inl infile, w) =>
  (* defer infile.Close() *)
  let defers := [Some infile] in
  let buff := make_bytes 512 in
  let '(buff, pos, err) := Read hdr 0 buff in
  match err with
  | Some err => (Returns ([], Some err), uploadedFiles, run_defers defers w)
  | None =>
  let allowed := false in
  let fileType := DetectContentType L buff in
  let allowed :=
    if (0 <? List.length (AllowedFileTypes t))%nat then
      fold_left (fun allowed x =>
                   if EqualFold L fileType x then true else allowed)
        (AllowedFileTypes t) allowed
    else true in
  if negb allowed then
    (Returns ([], Some (errors_New "the uploaded file type is not permitted")),
     uploadedFiles, run_defers defers w)
  else
  let (pos, err) := Seek hdr pos in
  match err with
  | Some err => (Returns ([], Some err), uploadedFiles, run_defers defers w)
  | None =>
  let named :=
    if renameFile then
      match Random.RandomString (draw L) (drawn w) 25 with
      | Returns s =>
          Returns ((s ++ filepath_Ext (Filename hdr))%string,
                   set_drawn w (drawn w + 25)%nat)
      | Panics reason => Panics reason
      end
    else Returns (Filename hdr, w) in
  match named with
  | Panics reason => (Panics reason, uploadedFiles, run_defers defers w)
  | Returns (newFileName, w) =>
  (* var outfile *os.File; defer outfile.Close(): the receiver is nil *)
  let outfile : option handle := None in
  let defers := outfile :: defers in
  (* if outfile, err := os.Create(...): another variable outfile *)
  let path := filepath_Join L uploadDir newFileName in
  match Create path w with
  | (inr err, w) =>
      (Returns ([], Some err), uploadedFiles, run_defers defers w)
  | (inl outfile', w) =>
      let '(fileSize, err, w) := Copy path hdr pos w in
      match err with
      | Some err =>
          (Returns ([], Some err), uploadedFiles, run_defers defers w)
      | None =>
          let uploadedFile :=
            mkUploadedFile newFileName (Filename hdr) fileSize in
          let uploadedFiles := uploadedFiles ++ [uploadedFile] in
          (Returns (uploadeFiles, None), uploadedFiles,
           run_defers defers w)
      end
  end
  end
  end
  end
  end.

(** Where a loop of [UploadFiles] stands after some iterations: it goes on
    with the variable [uploadedFiles] and the world, or the function has
    left with a result. *)
Inductive loop_state : Type :=
| Goes_on (uploadedFiles : list UploadedFile) (w : World)
| Left (result : outcome part_return) (w : World).

(** [for _, hdr := range fHeaders] *)
Fixpoint range_headers (t : Tools) (uploadDir : string) (renameFile : bool)
    (fHeaders : list FileHeader) (uploadedFiles : list UploadedFile)
    (w : World) : loop_state :=
  match fHeaders with
  | [] => Goes_on uploadedFiles w
  | hdr :: rest =>
      match upload_part t uploadDir renameFile hdr uploadedFiles
              uploadedFiles w with
      | (Panics reason, _, w) => Left (Panics reason) w
      | (Returns (uploadedFiles', err), outer, w) =>
          (* uploadedFiles' and err are the variables declared by := *)
          match err with
          | Some err => Left (Returns (uploadedFiles', Some err)) w
          | None => range_headers t uploadDir renameFile rest outer w
          end
      end
  end.

(** [for _, fHeaders := range r.MultipartForm.File] *)
Fixpoint range_File (t : Tools) (uploadDir : string) (renameFile : bool)
    (File : list (string * list FileHeader))
    (uploadedFiles : list UploadedFile) (w : World) : loop_state :=
  match File with
  | [] => Goes_on uploadedFiles w
  | (_, fHeaders) :: rest =>
      match range_headers t uploadDir renameFile fHeaders uploadedFiles w
      with
      | Goes_on uploadedFiles w =>
          range_File t uploadDir renameFile rest uploadedFiles w
      | Left result w => Left result w
      end
  end.

(** [func (t *Tools) UploadFiles(r, uploadDir, rename ...bool)]: what the
    call returns, the struct behind [t] after the call, and the world
    after the call. *)
Definition UploadFiles (t : Tools) (r : Request) (uploadDir : string)
    (rename : list bool) (w : World)
  : outcome part_return * Tools * World :=
  let renameFile := true in
  let renameFile :=
    match rename with b :: _ => b | [] => renameFile end in
  let uploadedFiles : list UploadedFile := [] in
  let t :=
    if MaxFileSize t =? 0
    then set_MaxFileSize t (1024 * 1024 * 1024) else t in
  match CreateDirIfNotExist uploadDir w with
  | (Some err, w) => (Returns ([], Some err), t, w)
  | (None, w) =>
      match ParseMultipartForm r (MaxFileSize t) with
      | Some _ =>
          (Returns ([], Some (errors_New "the uploaded file is too big")),
           t, w)
      | None =>
          match range_File t uploadDir renameFile (MultipartForm_File r)
                  uploadedFiles w with
          | Left result w => (result, t, w)
          | Goes_on uploadedFiles w => (Returns (uploadedFiles, None), t, w)
          end
      end
  end.

(** [func (t *Tools) UploadOneFile(r, uploadDir, rename ...bool)]: the
    pointer returned is [None] for nil.  [files[0]] panics on an empty
    slice. *)
Definition UploadOneFile (t : Tools) (r : Request) (uploadDir : string)
    (rename : list bool) (w : World)
  : outcome (option UploadedFile * option error) * Tools * World :=
  let renameFile := true in
  let renameFile :=
    match rename with b :: _ => b | [] => renameFile end in
  match UploadFiles t r uploadDir [renameFile] w with
  | (Panics reason, t, w) => (Panics reason, t, w)
  | (Returns (files, err), t, w) =>
      match err with
      | Some err => (Returns (None, Some err), t, w)
      | None =>
          match files with
          | f :: _ => (Returns (Some f, None), t, w)
          | [] =>
              (Panics "index out of range [0] with length 0", t, w)
          end
      end
  end.

End WithLib.

(** *** A concrete library, for running the pipeline *)

Definition is_binary (b : byte) : bool :=
  let n := Byte.to_N b in
  ((n <=? 8) || (n =? 11) || ((14 <=? n) && (n <=? 26))
   || ((28 <=? n) && (n <=? 31)))%N.

Definition png_signature : list byte :=
  [x89; x50; x4e; x47; x0d; x0a; x1a; x0a].

Fixpoint has_prefix (sig data : list byte) : bool :=
  match sig, data with
  | [], _ => true
  | s :: sig', d :: data' => Byte.eqb s d && has_prefix sig' data'
  | _ :: _, [] => false
  end.

(** Three rules of the table of [http.DetectContentType]: the PNG
    signature, then text for data without a binary byte, then the
    default.  The other signatures of the table match none of the data
    this file runs the pipeline on. *)
Definition sniff (data : list byte) : string :=
  let data := firstn 512 data in
  if has_prefix png_signature data then "image/png"
  else if negb (existsb is_binary data) then "text/plain; charset=utf-8"
  else "application/octet-stream".

Definition fold_ascii (c : ascii) : ascii :=
  let n := nat_of_ascii c in
  if ((65 <=? n) && (n <=? 90))%nat then ascii_of_nat (n + 32) else c.

(** [strings.EqualFold] on ASCII strings. *)
Fixpoint EqualFold_ascii (s u : string) : bool :=
  match s, u with
  | EmptyString, EmptyString => true
  | String a s', String b u' =>
      Ascii.eqb (fold_ascii a) (fold_ascii b) && EqualFold_ascii s' u'
  | _, _ => false
  end.

(** A library without faults: joining a clean directory and a file name
    puts a slash between them, and every prime drawn is 2^64 - 323. *)
Definition fair : Lib :=
  mkLib sniff EqualFold_ascii
    (fun dir name => (dir ++ "/" ++ name)%string)
    (fun _ => None) (fun _ => None) (fun _ => None)
    (fun _ => Random.prime_61).

Definition empty_world : World := mkWorld [] [] [] 0%nat 0%nat.

Definition part (name : string) (data : list byte) : FileHeader :=
  mkFileHeader name data None None None None.

Definition bytes_of_string (s : string) : list byte :=
  list_byte_of_string s.

(** A form with one field, and three parts to upload: the start of a PNG
    image, five bytes of text, and an empty file. *)
Definition form (fHeaders : list FileHeader) : Request :=
  mkRequest (fun _ => None) [("file"%string, fHeaders)].

Definition png_part : FileHeader :=
  part "a.png" (png_signature ++ [x00; x01]).

Definition text_part : FileHeader := part "b.txt" (bytes_of_string "hello").

Definition empty_part : FileHeader := part "c.txt" [].

(** A form without any file. *)
Definition no_file : Request := mkRequest (fun _ => None) [].

Definition any_type : Tools := mkTools 0 [] 0 false.
Definition only_png : Tools := mkTools 0 ["image/png"%string] 0 false.
Definition only_text : Tools :=
  mkTools 0 ["text/plain; charset=utf-8"%string] 0 false.

(** The buffer that [upload_part] hands to [http.DetectContentType]. *)
Definition sniffed (hdr : FileHeader) : list byte :=
  fst (fst (Read hdr 0 (make_bytes 512))).

(** The same library with another sniffer. *)
Definition with_sniffer (L : Lib) (D : list byte -> string) : Lib :=
  mkLib D (EqualFold L) (filepath_Join L) (Stat_fault L) (MkdirAll_fault L)
    (Create_fault L) (draw L).

(** Every open handle was given out before: the next handle is new. *)
Definition fresh (w : World) : Prop :=
  Forall (fun h => (h < next_handle w)%nat) (open_handles w).

(** The headers of a form, in the order in which the loops visit them. *)
Definition headers (r : Request) : list FileHeader :=
  List.concat (map snd (MultipartForm_File r)).

End Upload.

(** ** WriteJSON, ErrorJSON and PushJSONToRemote *)

Module Http.

(** [http.Header], a map from keys to lists of values, as the list of
    its bindings; the first binding of a key is the current one. *)
Definition Header : Type := list (string * list string).

(** [h[key]] *)
Definition lookup (h : Header) (key : string) : option (list string) :=
  match find (fun e => (fst e =? key)%string) h with
  | Some e => Some (snd e)
  | None => None
  end.

(** [h[key] = value] *)
Definition store (h : Header) (key : string) (value : list string) : Header :=
  (key, value) :: h.

(** The entries that [range h] visits: every key once, with its current
    value. *)
Fixpoint entries (h : Header) : Header :=
  match h with
  | [] => []
  | (k, v) :: rest =>
      (k, v) :: filter (fun e => negb (fst e =? k)%string) (entries rest)
  end.

(** [h.Set(key, value)] for a key in canonical form, as "Content-Type"
    is. *)
Definition Header_Set (h : Header) (key value : string) : Header :=
  store h key [value].

(** [h.Get(key)] for a key in canonical form. *)
Definition Header_Get (h : Header) (key : string) : string :=
  match lookup h key with
  | Some (v :: _) => v
  | _ => ""%string
  end.

(** [http.ResponseWriter]: the header map of [w.Header()], the status
    line once it is sent with the headers that went out with it, the body
    written so far, and the fault of the connection, if it has one. *)
Record ResponseWriter : Type := mkResponseWriter {
  header : Header;
  status : option Z;
  sent : Header;
  body : list byte;
  write_fault : option error
}.

Definition set_header (w : ResponseWriter) (h : Header) : ResponseWriter :=
  mkResponseWriter h (status w) (sent w) (body w) (write_fault w).

(** [w.WriteHeader(statusCode)]: the first call sends the status line
    and the headers; a later call changes nothing. *)
Definition WriteHeader (w : ResponseWriter) (statusCode : Z) : ResponseWriter :=
  match status w with
  | Some _ => w
  | None =>
      mkResponseWriter (header w) (Some statusCode) (header w) (body w)
        (write_fault w)
  end.

(** [w.Write(out)]: sends status 200 first if no status line went out. *)
Definition Write (w : ResponseWriter) (out : list byte)
  : option error * ResponseWriter :=
  let w := WriteHeader w 200 in
  match write_fault w with
  | Some err => (Some err, w)
  | None =>
      (None,
       mkResponseWriter (header w) (status w) (sent w) (body w ++ out)
         (write_fault w))
  end.

(** [*http.Request] as [PushJSONToRemote] builds it. *)
Record Request : Type := mkRequest {
  Method : string;
  URL : string;
  Request_Header : Header;
  Request_Body : list byte
}.

(** [*http.Response]: the status code, and the body with its state. *)
Record Response : Type := mkResponse {
  StatusCode : Z;
  Response_Body : list byte;
  Body_closed : bool
}.

(** [response.Body.Close()], seen through the pointer [response]. *)
Definition Body_Close (r : Response) : Response :=
  mkResponse (StatusCode r) (Response_Body r) true.

(** [httpClient.Do]: what the client answers to a request. *)
Definition Client : Type := Request -> Response + error.

Section WithJson.

(** The values that the callers pass as [interface{}], and
    [json.Marshal] on them. *)
Variable value : Type.
Variable json_Marshal : value -> list byte + error.

(** [type JSONResponse struct] *)
Record JSONResponse : Type := mkJSONResponse {
  Error' : bool;
  Message : string;
  Data : option value
}.

(** A [JSONResponse] passed as [interface{}]. *)
Variable boxed : JSONResponse -> value.

(** The client [&http.Client{}], and [http.NewRequest] failing on a
    method and a URL. *)
Variable default_Client : Client.
Variable NewRequest_fault : string -> string -> option error.

(** [func (t *Tools) WriteJSON(w, status, data, headers ...http.Header)] *)
Definition WriteJSON (w : ResponseWriter) (status : Z) (data : value)
    (headers : list Header) : option error * ResponseWriter :=
  match json_Marshal data with
  | inr err => (Some err, w)
  | inl out =>
      let w :=
        match headers with
        | h0 :: _ =>
            fold_left (fun w e => set_header w (store (header w) (fst e) (snd e)))
              (entries h0) w
        | [] => w
        end in
      let w :=
        set_header w (Header_Set (header w) "Content-Type" "application/json")
      in
      let w := WriteHeader w status in
      Write w out
  end.

(** [func (t *Tools) ErrorJSON(w, err, status ...int) error] *)
Definition ErrorJSON (w : ResponseWriter) (err : error) (status : list Z)
  : option error * ResponseWriter :=
  let statusCode := 400 in
  let statusCode :=
    match status with s0 :: _ => s0 | [] => statusCode end in
  let payload := mkJSONResponse true (Error err) None in
  WriteJSON w statusCode (boxed payload) [].

(** [http.NewRequest(method, url, bytes.NewBuffer(body))] *)
Definition NewRequest (method url : string) (body : list byte)
  : Request + error :=
  match NewRequest_fault method url with
  | Some err => inr err
  | None => inl (mkRequest method url [] body)
  end.

(** [func (t *Tools) PushJSONToRemote(url, data, client ...*http.Client)]:
    what the call returns, and the requests that went out, appended to
    those that went out before. *)
Definition PushJSONToRemote (url : string) (data : value)
    (client : list Client) (out : list Request)
  : (option Response * Z * option error) * list Request :=
  match json_Marshal data with
  | inr err => ((None, 0, Some err), out)
  | inl jsonData =>
      let httpClient := default_Client in
      let httpClient :=
        match client with c0 :: _ => c0 | [] => httpClient end in
      match NewRequest "POST" url jsonData with
      | inr err => ((None, 0, Some err), out)
      | inl request =>
          let request :=
            mkRequest (Method request) (URL request)
              (Header_Set (Request_Header request) "Content-Type"
                 "application/json")
              (Request_Body request) in
          match httpClient request with
          | inr err => ((None, 0, Some err), out ++ [request])
          | inl response =>
              (* defer response.Body.Close() runs before the caller sees
                 the response *)
              ((Some (Body_Close response), StatusCode response, None),
               out ++ [request])
          end
      end
  end.

End WithJson.

(** A writer on which nothing was sent yet. *)
Definition new_writer : ResponseWriter := mkResponseWriter [] None [] [] None.

(** Values that are JSON texts already, for running the functions: they
    marshal to their bytes, and an envelope is boxed as its text (for a
    message without characters to escape). *)
Definition text_Marshal (v : string) : list byte + error :=
  inl (list_byte_of_string v).

Definition quoted (s : string) : string :=
  (String (ascii_of_nat 34) s ++ String (ascii_of_nat 34) EmptyString)%string.

Definition text_boxed (r : JSONResponse string) : string :=
  ("{" ++ quoted "error" ++ ":" ++ (if Error' string r then "true" else "false")
   ++ "," ++ quoted "message" ++ ":" ++ quoted (Message string r)
   ++ match Data string r with
      | Some d => "," ++ quoted "data" ++ ":" ++ d
      | None => ""
      end ++ "}")%string.

(** A client that answers 200 with the body of the request. *)
Definition echo_client : Client :=
  fun request => inl (mkResponse 200 (Request_Body request) false).

(** A client that cannot connect. *)
Definition dead_client : Client :=
  fun _ => inr (lib_error "connection refused").

Definition no_fault (method url : string) : option error := None.

End Http.

(** ** Shapes used to state what the functions return *)

Module Shape.

(** A character of a slug: a-z, 0-9 or the dash. *)
Definition slug_rune (r : Slug.rune) : bool :=
  Slug.is_lower r || Slug.is_digit r || (r =? Slug.dash)%N.

(** No two dashes follow each other. *)
Fixpoint single_dashes (l : list Slug.rune) : Prop :=
  match l with
  | a :: (b :: _) as rest =>
      ~ (a = Slug.dash /\ b = Slug.dash) /\ single_dashes rest
  | _ => True
  end.

(** The shape of a slug: not empty, only slug characters, no dash at
    either end, no two dashes in a row. *)
Definition slug_shape (l : list Slug.rune) : Prop :=
  l <> [] /\
  Forall (fun r => slug_rune r = true) l /\
  hd_error l <> Some Slug.dash /\
  hd_error (rev l) <> Some Slug.dash /\
  single_dashes l.

(** The record of a part that is stored under its own name. *)
Definition record_of (hdr : Upload.FileHeader) : UploadedFile :=
  mkUploadedFile (Upload.Filename hdr) (Upload.Filename hdr)
    (Z.of_nat (List.length (Upload.content hdr))).

(** Where the file of a record is stored. *)
Definition path_of (L : Upload.Lib) (uploadDir : string) (f : UploadedFile)
  : string :=
  Upload.filepath_Join L uploadDir (NewFileName f).

(** A record is the record of a part: it has the name of the part as its
    original name and the number of bytes of the part as its size; its
    new name is the name of the part, or, when files are renamed, 25
    characters of the alphabet followed by the extension of the name of
    the part. *)
Definition recorded (renameFile : bool) (f : UploadedFile)
    (hdr : Upload.FileHeader) : Prop :=
  OriginalFileName f = Upload.Filename hdr /\
  FileSize f = Z.of_nat (List.length (Upload.content hdr)) /\
  if renameFile then
    exists rnd : string,
      NewFileName f
      = (rnd ++ Upload.filepath_Ext (Upload.Filename hdr))%string /\
      String.length rnd = 25%nat /\
      Forall (fun c => In c (Random.runes_of Random.randomStringSource))
        (Random.runes_of rnd)
  else NewFileName f = Upload.Filename hdr.

(** The bindings that uploading the parts adds to the files, the latest
    first: every file is created empty and then filled. *)
Fixpoint written (L : Upload.Lib) (uploadDir : string)
    (fs : list UploadedFile) (hdrs : list Upload.FileHeader)
  : list (string * list byte) :=
  match fs, hdrs with
  | f :: fs', hdr :: hdrs' =>
      written L uploadDir fs' hdrs'
        ++ [(path_of L uploadDir f, Upload.content hdr);
            (path_of L uploadDir f, [])]
  | _, _ => []
  end.

(** A world in which the upload directory holds a file already. *)
Definition used_world : Upload.World :=
  Upload.mkWorld ["up"%string] [("up/old.txt"%string, [x6f; x6c; x64])] []
    0%nat 0%nat.

(** The same request with other files. *)
Definition with_File (r : Upload.Request)
    (File : list (string * list Upload.FileHeader)) : Upload.Request :=
  Upload.mkRequest (Upload.ParseMultipartForm r) File.

(** The allow-list admits a content type. *)
Definition admits (L : Upload.Lib) (t : Tools) (fileType : string) : bool :=
  match AllowedFileTypes t with
  | [] => true
  | types => existsb (Upload.EqualFold L fileType) types
  end.

End Shape.

(** * Properties *)

(** ** RandomString *)

Section RandomFacts.

Import Random.

Lemma string_length_of_list (l : list ascii) :
  String.length (string_of_list_ascii l) = List.length l.
Proof.
  induction l as [|a l IH]; simpl.
  - reflexivity.
  - now rewrite IH.
Qed.

Lemma fill_length r draw k len : List.length (fill r draw k len) = len.
Proof.
  revert k. induction len as [|len IH]; intros k; simpl.
  - reflexivity.
  - now rewrite IH.
Qed.

Lemma rune_at_In (r : list ascii) (x : Z) :
  r <> [] -> In (rune_at r (x mod Z.of_nat (List.length r))) r.
Proof.
  intros Hr. unfold rune_at. apply nth_In.
  assert (0 < Z.of_nat (List.length r)) as Hpos
    by (destruct r; [congruence | simpl; lia]).
  pose proof (Z.mod_pos_bound x _ Hpos). lia.
Qed.

Lemma fill_In r draw k len c :
  r <> [] -> In c (fill r draw k len) -> In c r.
Proof.
  intros Hr. revert k. induction len as [|len IH]; intros k; simpl.
  - tauto.
  - intros [<- | Hin].
    + now apply rune_at_In.
    + eauto.
Qed.

Lemma alphabet_length :
  List.length (runes_of randomStringSource) = 64%nat.
Proof. reflexivity. Qed.

(** A prime above 2 is odd. *)
Lemma rand_Prime_post_odd (p : Z) :
  rand_Prime_post 64 p -> 0 <= p < 2 ^ 64 /\ Z.odd p = true.
Proof.
  intros [Hp Hb]. change (2 ^ (64 - 1)) with (2 ^ 63) in Hb.
  assert (0 < 2 ^ 63) by reflexivity.
  split; [lia|].
  destruct (Z.odd p) eqn:Ho; [reflexivity|exfalso].
  assert (Z.even p = true) as He by (rewrite <- Z.negb_odd, Ho; reflexivity).
  apply Z.even_spec in He. destruct He as [q Hq].
  assert (Z.divide 2 p) as Hd by (exists q; lia).
  apply (Z.divide_prime_r 2 p Hp) in Hd.
  assert (2 ^ 63 > 2) by reflexivity.
  lia.
Qed.

Lemma Uint64_small (p : Z) : 0 <= p < 2 ^ 64 -> Uint64 p = p.
Proof.
  intros H. unfold Uint64. rewrite Z.abs_eq by lia.
  now apply Z.mod_small.
Qed.

Lemma odd_mod_64 (p : Z) : Z.odd (p mod 64) = Z.odd p.
Proof.
  rewrite (Z.div_mod p 64) at 2 by lia.
  replace (64 * (p / 64)) with (2 * (32 * (p / 64))) by lia.
  rewrite Z.add_comm, Z.odd_add_mul_2. reflexivity.
Qed.

Lemma nth_even_evens {A : Type} (j : nat) : forall (l : list A) (d : A),
  (2 * j < List.length l)%nat -> In (nth (2 * j) l d) (evens l).
Proof.
  induction j as [|j IH]; intros l d Hlt.
  - destruct l as [|a l]; simpl in *; [lia | now left].
  - destruct l as [|a [|b l]]; simpl in Hlt; try lia.
    replace (2 * S j)%nat with (S (S (2 * j))) by lia.
    change (evens (a :: b :: l)) with (a :: evens l).
    right. apply IH. lia.
Qed.

Lemma nth_odd_odds {A : Type} (j : nat) (l : list A) (d : A) :
  (2 * j + 1 < List.length l)%nat -> In (nth (2 * j + 1) l d) (odds l).
Proof.
  intros Hlt.
  destruct l as [|a l]; simpl in Hlt; [lia|].
  replace (2 * j + 1)%nat with (S (2 * j)) by lia.
  apply (nth_even_evens j l d). lia.
Qed.

Lemma fill_odds r draw k len c :
  Z.of_nat (List.length r) = 64 ->
  (forall i, rand_Prime_post 64 (draw i)) ->
  In c (fill r draw k len) -> In c (odds r).
Proof.
  intros Hlen Hdraw. revert k.
  induction len as [|len IH]; intros k; simpl; [tauto|].
  intros [<- | Hin]; [|eauto].
  destruct (rand_Prime_post_odd _ (Hdraw k)) as [Hr Ho].
  rewrite (Uint64_small _ Hr), Hlen.
  pose proof (Z.mod_pos_bound (draw k) 64 ltac:(lia)) as Hm.
  rewrite <- (odd_mod_64 (draw k)) in Ho.
  apply Z.odd_spec in Ho. destruct Ho as [m Hm'].
  unfold rune_at. rewrite Hm'.
  replace (Z.to_nat (2 * m + 1)) with (2 * Z.to_nat m + 1)%nat by lia.
  apply nth_odd_odds. lia.
Qed.

Lemma odds_not_evens (c : ascii) :
  In c (odds (runes_of randomStringSource)) ->
  ~ In c (evens (runes_of randomStringSource)).
Proof.
  intros Ho He.
  assert (forallb (fun a =>
            negb (existsb (Ascii.eqb a) (evens (runes_of randomStringSource))))
            (odds (runes_of randomStringSource)) = true) as Hall
    by reflexivity.
  rewrite forallb_forall in Hall. specialize (Hall c Ho).
  apply negb_true_iff in Hall.
  assert (existsb (Ascii.eqb c) (evens (runes_of randomStringSource)) = true)
    as Hex by (apply existsb_exists; exists c; split;
               [exact He | apply Ascii.eqb_refl]).
  congruence.
Qed.

(** C9: for every n >= 0, RandomString(n) returns a string of length
    exactly n, and every character of it is one of the 64 characters of
    randomStringSource. *)
Theorem RandomString_length_and_alphabet (draw : entropy) (k : nat) (n : Z) :
  0 <= n ->
  exists s,
    RandomString draw k n = Returns s /\
    Z.of_nat (String.length s) = n /\
    String.length randomStringSource = 64%nat /\
    forall c, In c (runes_of s) -> In c (runes_of randomStringSource).
Proof.
  intros Hn. unfold RandomString.
  destruct (n <? 0) eqn:Hneg; [apply Z.ltb_lt in Hneg; lia|].
  eexists. split; [reflexivity|]. split; [|split].
  - rewrite string_length_of_list, fill_length. lia.
  - reflexivity.
  - intros c. unfold runes_of at 1.
    rewrite list_ascii_of_string_of_list_ascii.
    apply fill_In. discriminate.
Qed.

Lemma RandomString_length_and_alphabet_witness :
  0 <= 10 /\
  exists s,
    RandomString (fun _ => prime_61) 0 10 = Returns s /\
    Z.of_nat (String.length s) = 10 /\
    String.length randomStringSource = 64%nat /\
    forall c, In c (runes_of s) -> In c (runes_of randomStringSource).
Proof.
  split; [lia|].
  apply (RandomString_length_and_alphabet (fun _ => prime_61) 0 10). lia.
Defined.

(** C10, as amended: when every draw is what rand.Prime gives for 64
    bits, a prime of exactly 64 bits, which is odd, every character that
    RandomString emits stands at an
    odd index of randomStringSource, so none of the 32 characters at the
    even indices (a, c, e, ..., 8 and _) ever occurs; the character 9
    stands at the odd index 61 and does occur. *)
Theorem RandomString_odd_indices (draw : entropy) (k : nat) (n : Z)
    (s : string) :
  (forall i, rand_Prime_post 64 (draw i)) ->
  RandomString draw k n = Returns s ->
  evens (runes_of randomStringSource)
    = runes_of "acegikmoqsuwyACEGIKMOQSUWY02468_" /\
  odds (runes_of randomStringSource)
    = runes_of "bdfhjlnprtvxzBDFHJLNPRTVXZ13579+" /\
  forall c, In c (runes_of s) ->
    In c (odds (runes_of randomStringSource)) /\
    ~ In c (evens (runes_of randomStringSource)).
Proof.
  intros Hdraw Hrun. split; [reflexivity|]. split; [reflexivity|].
  unfold RandomString in Hrun.
  destruct (n <? 0); [discriminate|].
  injection Hrun as <-. intros c Hc.
  unfold runes_of at 1 in Hc.
  rewrite list_ascii_of_string_of_list_ascii in Hc.
  assert (In c (odds (runes_of randomStringSource))) as Ho
    by (eapply fill_odds; [reflexivity | exact Hdraw | exact Hc]).
  split; [exact Ho | now apply odds_not_evens].
Qed.

(** *** 2^64 - 323 is prime, by Pocklington's criterion *)

Lemma sq_mul_mod (x a n : Z) : 0 < n ->
  ((x mod n * (x mod n)) mod n * a) mod n = (x * x * a) mod n.
Proof.
  intros Hn.
  rewrite <- (Z.mul_mod x x n) by lia.
  rewrite Z.mul_mod_idemp_l by lia. reflexivity.
Qed.

Lemma powmod_spec (a : Z) (e : positive) (n : Z) :
  0 < n -> powmod a e n = a ^ Zpos e mod n.
Proof.
  intros Hn. induction e as [e IH|e IH|]; simpl powmod.
  - rewrite IH, Pos2Z.inj_xI, sq_mul_mod by lia.
    replace (2 * Z.pos e + 1) with (Z.pos e + Z.pos e + 1) by lia.
    rewrite !Z.pow_add_r, Z.pow_1_r by lia. reflexivity.
  - rewrite IH, Pos2Z.inj_xO.
    replace (2 * Z.pos e) with (Z.pos e + Z.pos e) by lia.
    rewrite Z.pow_add_r by lia.
    rewrite <- Z.mul_mod by lia. reflexivity.
  - now rewrite Z.pow_1_r.
Qed.

Lemma no_divisor_spec (n : Z) (fuel : nat) : forall d,
  0 < d -> no_divisor n d fuel = true ->
  forall m, d <= m < d + Z.of_nat fuel -> ~ (m | n).
Proof.
  induction fuel as [|fuel IH]; intros d Hd H m Hm; [lia|].
  simpl in H. apply andb_true_iff in H. destruct H as [H1 H2].
  destruct (Z.eq_dec m d) as [->|Hne].
  - intros Hdiv. apply Z.mod_divide in Hdiv; [|lia].
    apply negb_true_iff, Z.eqb_neq in H1. contradiction.
  - apply (IH (d + 1)); [lia | exact H2 | lia].
Qed.

Lemma trial_division_prime (n : Z) (fuel : nat) :
  trial_division n fuel = true -> Z.prime n.
Proof.
  unfold trial_division. intros H.
  apply andb_true_iff in H. destruct H as [H Hnd].
  apply andb_true_iff in H. destruct H as [H1 Hsq].
  apply Z.ltb_lt in H1. apply Z.ltb_lt in Hsq.
  split; [exact H1|].
  intros m Hm [c Hc].
  assert (1 < c < n) as Hcr by nia.
  pose proof (no_divisor_spec n fuel 2 ltac:(lia) Hnd) as Hno.
  destruct (Z_lt_le_dec m (2 + Z.of_nat fuel)) as [Hsmall|Hbig].
  - apply (Hno m); [lia | exists c; exact Hc].
  - destruct (Z_lt_le_dec c (2 + Z.of_nat fuel)) as [Hsmall'|Hbig'].
    + apply (Hno c); [lia | exists m; lia].
    + nia.
Qed.

Lemma pow_mod_one_divide (p a g m : Z) :
  1 < p -> 0 <= g -> 0 <= m -> (g | m) ->
  a ^ g mod p = 1 -> a ^ m mod p = 1.
Proof.
  intros Hp Hg Hm [c Hc] H.
  destruct (Z.eq_dec g 0) as [->|Hg0].
  - replace m with 0 by lia. rewrite Z.pow_0_r. apply Z.mod_small. lia.
  - assert (0 <= c) by nia.
    subst m. rewrite Z.mul_comm, Z.pow_mul_r by lia.
    rewrite <- Z.mod_pow_l, H, Z.pow_1_l by lia.
    apply Z.mod_small. lia.
Qed.

Lemma pow_mod_one_gcd (p a : Z) (fuel : nat) : forall x y,
  1 < p -> 0 <= x -> 0 <= y -> (Z.to_nat y < fuel)%nat ->
  a ^ x mod p = 1 -> a ^ y mod p = 1 -> a ^ Z.gcd x y mod p = 1.
Proof.
  induction fuel as [|fuel IH]; intros x y Hp Hx Hy Hfuel Hax Hay; [lia|].
  destruct (Z.eq_dec y 0) as [->|Hy0].
  - rewrite Z.gcd_0_r, Z.abs_eq by lia. exact Hax.
  - rewrite (Z.gcd_comm x y), <- (Z.gcd_mod x y), Z.gcd_comm by lia.
    pose proof (Z.mod_pos_bound x y ltac:(lia)) as Hb.
    apply IH; [lia | lia | lia | lia | exact Hay | ].
    rewrite (Z.div_mod x y) in Hax by lia.
    assert (0 <= x / y) as Hq by (apply Z.div_pos; lia).
    rewrite Z.pow_add_r, Z.pow_mul_r in Hax by nia.
    rewrite Z.mul_mod, <- (Z.mod_pow_l (a ^ y)), Hay, Z.pow_1_l in Hax
      by lia.
    rewrite (Z.mod_small 1) in Hax by lia.
    rewrite Z.mul_1_l, Z.mod_mod in Hax by lia. exact Hax.
Qed.

Lemma mod_one_divide (x N p : Z) :
  1 < p -> 0 < N -> (p | N) -> x mod N = 1 -> x mod p = 1.
Proof.
  intros Hp HN [c Hc] H.
  rewrite (Z.div_mod x N), H by lia. subst N.
  replace (c * p * (x / (c * p)) + 1) with (1 + (c * (x / (c * p))) * p)
    by ring.
  rewrite Z.mod_add by lia. apply Z.mod_small. lia.
Qed.

(** One step of Pocklington's criterion: a prime factor [q] of [N - 1]
    with a witness [a] divides [p - 1] for every prime divisor [p] of
    [N]. *)
Lemma pocklington_factor (N a q m p : Z) :
  Z.prime q -> Z.prime p -> (p | N) -> 1 < N ->
  N - 1 = q * m -> 0 < m ->
  a ^ (N - 1) mod N = 1 ->
  Z.gcd (a ^ m mod N - 1) N = 1 ->
  (q | p - 1).
Proof.
  intros Hq Hp HpN HN HNm Hm Ha Hg.
  pose proof (Z.prime_ge_2 _ Hp) as Hp2.
  pose proof (Z.prime_ge_2 _ Hq) as Hq2.
  assert (a ^ (N - 1) mod p = 1) as Hap
    by (apply (mod_one_divide _ N); try lia; assumption).
  assert (a mod p <> 0) as Hnz.
  { intros H0. rewrite <- Z.mod_pow_l, H0, Z.pow_0_l in Hap by lia.
    rewrite Z.mod_0_l in Hap by lia. discriminate. }
  pose proof (ZmodInv.Z.fermat_nz p a Hp Hnz) as Hf.
  pose proof (pow_mod_one_gcd p a (S (Z.to_nat (p - 1))) (N - 1) (p - 1)
                ltac:(lia) ltac:(lia) ltac:(lia) ltac:(lia) Hap Hf) as Hgcd.
  set (g := Z.gcd (N - 1) (p - 1)) in *.
  assert (0 <= g) as Hg0 by apply Z.gcd_nonneg.
  destruct (Z.eq_dec ((p - 1) mod q) 0) as [Hyes|Hno];
    [apply Z.mod_divide; [lia | exact Hyes] | exfalso].
  rewrite Z.mod_divide in Hno by lia.
  assert (~ (q | g)) as Hqg.
  { intros Hd. apply Hno. eapply Z.divide_trans; [exact Hd|].
    apply Z.gcd_divide_r. }
  assert (Z.gcd g q = 1) as Hcop.
  { rewrite Z.gcd_comm. apply Z.coprime_prime_l; assumption. }
  assert (g | m) as Hgm.
  { apply (Z.gauss g q m); [|exact Hcop].
    rewrite <- HNm. apply Z.gcd_divide_l. }
  assert (a ^ m mod p = 1) as Ham
    by (apply (pow_mod_one_divide p a g m); try lia; assumption).
  assert (p | a ^ m mod N - 1) as Hdiv.
  { destruct HpN as [c Hc].
    rewrite Z.mod_eq by lia.
    apply Z.mod_divide; [lia|].
    replace (a ^ m - N * (a ^ m / N) - 1)
      with (a ^ m - 1 + (- (c * (a ^ m / N))) * p) by (subst N; ring).
    rewrite Z.mod_add by lia.
    rewrite <- Zminus_mod_idemp_l, Ham. reflexivity. }
  assert (p | 1) as H1.
  { rewrite <- Hg. apply Z.gcd_greatest; assumption. }
  apply Z.divide_1_r_nonneg in H1; lia.
Qed.

Lemma prime_divisor_exists (fuel : nat) : forall n,
  1 < n -> (Z.to_nat n < fuel)%nat -> exists p, Z.prime p /\ (p | n).
Proof.
  induction fuel as [|fuel IH]; intros n Hn Hfuel; [lia|].
  destruct (prime_dec n) as [Hp|Hnp].
  - exists n. split; [now apply prime_alt | apply Z.divide_refl].
  - destruct (not_prime_divide n Hn Hnp) as (d & Hd & Hdn).
    destruct (IH d ltac:(lia) ltac:(lia)) as (p & Hp & Hpd).
    exists p. split; [exact Hp | eapply Z.divide_trans; eassumption].
Qed.

Lemma factor_1_prime : Z.prime factor_1.
Proof. apply (trial_division_prime factor_1 4248). vm_compute. reflexivity. Qed.

Lemma factor_2_prime : Z.prime factor_2.
Proof. apply (trial_division_prime factor_2 215). vm_compute. reflexivity. Qed.

(** The criterion with the powers computed by [powmod]. *)
Lemma pocklington_powmod (N a q : Z) (e m : positive) (p : Z) :
  Z.prime q -> Z.prime p -> (p | N) -> 1 < N ->
  N - 1 = Zpos e -> Zpos e = q * Zpos m ->
  powmod a e N = 1 ->
  Z.gcd (powmod a m N - 1) N = 1 ->
  (q | p - 1).
Proof.
  intros Hq Hp HpN HN He Hm Ha Hg.
  rewrite powmod_spec in Ha, Hg by lia.
  apply (pocklington_factor N a q (Zpos m) p); try assumption.
  - now rewrite He.
  - reflexivity.
  - now rewrite He.
Qed.

Lemma prime_61_divisors (p : Z) :
  Z.prime p -> (p | prime_61) -> factor_1 * factor_2 < p.
Proof.
  intros Hp Hd.
  assert (factor_1 | p - 1) as H1.
  { apply (pocklington_powmod prime_61 2 factor_1 18446744073709551292
             1022202220732 p factor_1_prime Hp Hd).
    - reflexivity.
    - reflexivity.
    - reflexivity.
    - vm_compute. reflexivity.
    - vm_compute. reflexivity. }
  assert (factor_2 | p - 1) as H2.
  { apply (pocklington_powmod prime_61 2 factor_2 18446744073709551292
             398650272809404 p factor_2_prime Hp Hd).
    - reflexivity.
    - reflexivity.
    - reflexivity.
    - vm_compute. reflexivity.
    - vm_compute. reflexivity. }
  destruct H1 as [u Hu].
  assert (factor_2 | u) as [v Hv].
  { apply (Z.gauss factor_2 factor_1 u).
    - rewrite Z.mul_comm, <- Hu. exact H2.
    - vm_compute. reflexivity. }
  pose proof (Z.prime_ge_2 _ Hp).
  assert (0 < v) by (unfold factor_1, factor_2 in *; nia).
  unfold factor_1, factor_2 in *. nia.
Qed.

Theorem prime_61_prime : Z.prime prime_61.
Proof.
  split; [reflexivity|].
  intros n Hn [c Hc].
  assert (1 < c) as Hc1 by (unfold prime_61 in *; nia).
  destruct (prime_divisor_exists (S (Z.to_nat n)) n ltac:(lia) ltac:(lia))
    as (p & Hp & Hpn).
  destruct (prime_divisor_exists (S (Z.to_nat c)) c ltac:(lia) ltac:(lia))
    as (p' & Hp' & Hpc).
  assert (factor_1 * factor_2 < p) as Hbig
    by (apply prime_61_divisors; [exact Hp|];
        eapply Z.divide_trans; [exact Hpn | exists c; exact Hc]).
  assert (factor_1 * factor_2 < p') as Hbig'
    by (apply prime_61_divisors; [exact Hp'|];
        eapply Z.divide_trans; [exact Hpc | exists n; lia]).
  apply Z.divide_pos_le in Hpn; [|lia].
  apply Z.divide_pos_le in Hpc; [|lia].
  assert (factor_1 * factor_2 * (factor_1 * factor_2) < n * c) by (unfold factor_1, factor_2 in *; nia).
  unfold prime_61, factor_1, factor_2 in *. lia.
Qed.

Lemma prime_61_post : rand_Prime_post 64 prime_61.
Proof.
  split; [exact prime_61_prime|]. split; [discriminate | reflexivity].
Qed.

Lemma RandomString_odd_indices_witness :
  (forall i : nat, rand_Prime_post 64 ((fun _ => prime_61) i)) /\
  RandomString (fun _ => prime_61) 0 2 = Returns "99" /\
  forall c, In c (runes_of "99") ->
    In c (odds (runes_of randomStringSource)) /\
    ~ In c (evens (runes_of randomStringSource)).
Proof.
  split; [intros _; exact prime_61_post|].
  split; [reflexivity|].
  apply (RandomString_odd_indices (fun _ => prime_61) 0 2 "99").
  - intros _. exact prime_61_post.
  - reflexivity.
Defined.

(** C10 as it is stated fails: it counts 9 among the characters that can
    never occur, but 9 stands at index 61 of randomStringSource, and a draw
    of the prime 2^64 - 323, which is 61 modulo 64, emits it. *)
Lemma RandomString_emits_nine :
  nth_error (runes_of randomStringSource) 61 = Some "9"%char /\
  ~ (forall (draw : entropy) (k : nat) (n : Z) (s : string),
       (forall i, rand_Prime_post 64 (draw i)) ->
       RandomString draw k n = Returns s ->
       forall c, In c (runes_of "ace9_") -> ~ In c (runes_of s)).
Proof.
  split; [reflexivity|].
  intros H.
  apply (H (fun _ => prime_61) 0%nat 1 "9"
           (fun _ => prime_61_post) eq_refl "9"%char); simpl; tauto.
Qed.

End RandomFacts.

(** ** Slugify *)

Section SlugFacts.

Import Slug.

Local Open Scope N_scope.

Variable To_LowerCase : rune -> rune.

(** [runs] cuts a list into pieces that are uniform, not empty, and whose
    neighbours differ: the maximal runs. *)
Lemma runs_concat (p : rune -> bool) (l : list rune) :
  List.concat (map snd (runs p l)) = l.
Proof.
  induction l as [|c rest IH]; simpl; [reflexivity|].
  destruct (runs p rest) as [|[b seg] more].
  - simpl in *. now rewrite <- IH.
  - destruct (Bool.eqb (p c) b); simpl in *; now rewrite <- IH.
Qed.

Lemma runs_uniform (p : rune -> bool) (l : list rune) :
  Forall (fun run => snd run <> [] /\ Forall (fun c => p c = fst run) (snd run))
    (runs p l).
Proof.
  induction l as [|c rest IH]; simpl; [constructor|].
  destruct (runs p rest) as [|[b seg] more].
  - constructor; [|constructor]. simpl. split; [discriminate|].
    constructor; [reflexivity | constructor].
  - inversion IH as [|? ? [Hne Hall] Hmore]; subst. simpl in *.
    destruct (Bool.eqb (p c) b) eqn:E.
    + apply Bool.eqb_prop in E. constructor; [|exact Hmore]. simpl.
      split; [discriminate | now constructor].
    + constructor; [|exact IH]. simpl. split; [discriminate|].
      constructor; [reflexivity | constructor].
Qed.

Lemma runs_alternate (p : rune -> bool) (l : list rune) :
  alternate (map fst (runs p l)).
Proof.
  induction l as [|c rest IH]; simpl; [exact I|].
  destruct (runs p rest) as [|[b seg] more]; [exact I|].
  destruct (Bool.eqb (p c) b) eqn:E.
  - exact IH.
  - simpl. split; [|exact IH].
    intros Heq. rewrite Heq, Bool.eqb_reflx in E. discriminate.
Qed.

(** The replacement of the regular expression is the replacement of the
    maximal runs. *)
Lemma ReplaceAll_runs (l : list rune) :
  ReplaceAll false l = spec_replace l /\
  ReplaceAll true l =
    match runs outside l with
    | (true, _) :: more =>
        flat_map (fun run : bool * list rune =>
                    if fst run then [dash] else snd run) more
    | _ => spec_replace l
    end.
Proof.
  unfold spec_replace.
  induction l as [|c rest [IHf IHt]]; simpl; [split; reflexivity|].
  change (re_class c) with (outside c).
  destruct (outside c) eqn:Hc;
    destruct (runs outside rest) as [|[[|] seg] more]; simpl in *;
    rewrite ?IHf, ?IHt; split; reflexivity.
Qed.

Lemma ReplaceAllString_spec (l : list rune) :
  ReplaceAllString l = spec_replace l.
Proof. exact (proj1 (ReplaceAll_runs l)). Qed.

Lemma TrimLeft_spec (l : list rune) : TrimLeft l = spec_trim_leading l.
Proof.
  induction l as [|c rest IH]; simpl; [reflexivity|].
  destruct (c =? dash); [exact IH | reflexivity].
Qed.

Lemma TrimLeft_snoc (a : list rune) (c : rune) :
  TrimLeft (a ++ [c]) =
    match TrimLeft a with
    | [] => if c =? dash then [] else [c]
    | kept => kept ++ [c]
    end.
Proof.
  induction a as [|x a IH]; simpl.
  - destruct (c =? dash); reflexivity.
  - destruct (x =? dash); [exact IH | reflexivity].
Qed.

Lemma TrimRight_spec (l : list rune) : TrimRight l = spec_trim_trailing l.
Proof.
  unfold TrimRight.
  induction l as [|c rest IH]; simpl; [reflexivity|].
  rewrite TrimLeft_snoc, <- IH.
  destruct (TrimLeft (rev rest)) as [|x kept] eqn:E; simpl.
  - destruct (c =? dash); reflexivity.
  - rewrite rev_app_distr. simpl.
    destruct (rev kept ++ [x]) eqn:E'; [|reflexivity].
    destruct (rev kept); discriminate.
Qed.

Lemma Trim_spec (l : list rune) :
  Trim l = spec_trim_trailing (spec_trim_leading l).
Proof. unfold Trim. now rewrite TrimRight_spec, TrimLeft_spec. Qed.

Lemma slug_spec (s : string) :
  Trim (ReplaceAllString (ToLower To_LowerCase s)) = spec_slug To_LowerCase s.
Proof.
  unfold spec_slug, ToLower. now rewrite Trim_spec, ReplaceAllString_spec.
Qed.

Lemma katakana_runes :
  runes "helloハローワールド" =
    [104; 101; 108; 108; 111; 12495; 12525; 12540; 12527; 12540; 12523; 12489].
Proof. reflexivity. Qed.

(** C8: on a non-empty input Slugify lower-cases it, replaces every
    maximal run of characters outside a-z and 0-9 by one dash and trims
    the dashes at both ends, and fails with EmptyResult when nothing is
    left; on the empty input it fails with EmptyInput; the two examples of
    the specification come out as stated (the second for a case table
    that leaves katakana alone). *)
Theorem Slugify_spec :
  (forall s : string, s <> ""%string ->
     Slugify To_LowerCase s =
       match spec_slug To_LowerCase s with
       | [] => (""%string, Some EmptyResult)
       | slug => (string_of_runes slug, None)
       end) /\
  Slugify To_LowerCase "" = (""%string, Some EmptyInput) /\
  Slugify To_LowerCase "Now is the time for all GOOD+="
    = ("now-is-the-time-for-all-good"%string, None) /\
  ((forall r, In r (runes "ハローワールド") -> To_LowerCase r = r) ->
   Slugify To_LowerCase "helloハローワールド" = ("hello"%string, None)).
Proof.
  split; [|split; [|split]].
  - intros s Hs. unfold Slugify.
    destruct s as [|a s]; [congruence|]. simpl String.length. simpl Nat.eqb.
    rewrite slug_spec.
    destruct (spec_slug To_LowerCase (String a s)); reflexivity.
  - reflexivity.
  - vm_compute. reflexivity.
  - intros Hk. unfold Slugify.
    assert (ToLower To_LowerCase "helloハローワールド"
            = [104; 101; 108; 108; 111; 12495; 12525; 12540; 12527; 12540;
               12523; 12489]) as ->.
    { unfold ToLower. rewrite katakana_runes.
      cbn [map]. unfold unicode_ToLower. cbn [N.leb N.compare Pos.compare
        Pos.compare_cont is_upper between andb].
      rewrite !Hk by (vm_compute; tauto). reflexivity. }
    vm_compute. reflexivity.
Qed.

End SlugFacts.

Lemma Slugify_spec_witness :
  "Hello, World!"%string <> ""%string /\
  Slug.Slugify Slug.caseless "Hello, World!" = ("hello-world"%string, None) /\
  (forall r, In r (Slug.runes "ハローワールド") -> Slug.caseless r = r) /\
  Slug.Slugify Slug.caseless "helloハローワールド" = ("hello"%string, None).
Proof.
  destruct (Slugify_spec Slug.caseless) as (Hgen & _ & _ & Hkana).
  split; [discriminate|].
  split; [exact (Hgen "Hello, World!"%string ltac:(discriminate))|].
  split; [reflexivity|].
  apply Hkana. reflexivity.
Defined.

(** ** ReadJSON *)

Section JsonFacts.

Import Json.

Variable Quote : string -> string.
Variable Body : Type.
Variable json_Decode : Z -> bool -> Body -> nat -> option error.

Lemma limit_eq (t : Tools) :
  (if negb (MaxJSONSize t =? 0) then MaxJSONSize t else 1024 * 1024)
  = limit t.
Proof. unfold limit. now destruct (MaxJSONSize t =? 0). Qed.

(** [ReadJSON] in terms of the two calls of [Decode]. *)
Lemma ReadJSON_unfold (t : Tools) (body : Body) :
  ReadJSON Quote Body json_Decode t body =
    match json_Decode (limit t) (negb (AllowUnkownFields t)) body 0%nat with
    | Some err => Some (rewrite_error Quote (limit t) err)
    | None =>
        match json_Decode (limit t) (negb (AllowUnkownFields t)) body 1%nat
        with
        | Some io_EOF => None
        | _ => Some (errors_New "body must contain only one JSON value")
        end
    end.
Proof. unfold ReadJSON. cbv zeta. rewrite limit_eq. reflexivity. Qed.

(** The error of the decoder for an unknown key passes through the
    [switch] unchanged: its message starts with "json: unknown field",
    the case tests the prefix "json:unkown field". *)
Lemma rewrite_error_unknown_field (maxBytes : Z) (key : string) :
  rewrite_error Quote maxBytes (json_unknown_field Quote key)
  = json_unknown_field Quote key.
Proof. reflexivity. Qed.

Lemma unknown_field_unclassified (key : string) :
  ~ UnknownField (json_unknown_field Quote key).
Proof. intros [name H]. simpl in H. discriminate. Qed.

(** C3, on the code: a body with an object key that the target has no
    field for, read with AllowUnkownFields false, makes the decoder report
    its unknown-field error, and ReadJSON returns that error as it is, not
    the message "body containes unknown key ...". *)
Theorem ReadJSON_unknown_field_raw (t : Tools) (body : Body) (key : string) :
  AllowUnkownFields t = false ->
  json_Decode (limit t) true body 0%nat
    = Some (json_unknown_field Quote key) ->
  ReadJSON Quote Body json_Decode t body
    = Some (json_unknown_field Quote key) /\
  ~ UnknownField (json_unknown_field Quote key).
Proof.
  intros Hstrict Hdec. split; [|apply unknown_field_unclassified].
  rewrite ReadJSON_unfold, Hstrict. simpl negb. rewrite Hdec.
  now rewrite rewrite_error_unknown_field.
Qed.

(** C7: when the first value of the body decodes, ReadJSON fails with
    "body must contain only one JSON value" if the decoder finds anything
    but the end of the stream after it, and succeeds if it finds the end
    of the stream. *)
Theorem ReadJSON_one_value (t : Tools) (body : Body) :
  json_Decode (limit t) (negb (AllowUnkownFields t)) body 0%nat = None ->
  (json_Decode (limit t) (negb (AllowUnkownFields t)) body 1%nat
     <> Some io_EOF ->
   ReadJSON Quote Body json_Decode t body
     = Some (errors_New "body must contain only one JSON value")) /\
  (json_Decode (limit t) (negb (AllowUnkownFields t)) body 1%nat
     = Some io_EOF ->
   ReadJSON Quote Body json_Decode t body = None).
Proof.
  intros Hfirst. rewrite ReadJSON_unfold, Hfirst. split.
  - intros Hnext.
    destruct (json_Decode _ _ body 1%nat) as [[]|]; congruence.
  - intros ->. reflexivity.
Qed.

End JsonFacts.

Section JsonRuns.

Import Json.

Lemma ReadJSON_unknown_field_raw_witness :
  AllowUnkownFields strict_tools = false /\
  scripted_Decode (limit strict_tools) true body_foo2 0%nat
    = Some (json_unknown_field Quote_plain "foo2") /\
  ReadJSON Quote_plain script scripted_Decode strict_tools body_foo2
    = Some (json_unknown_field Quote_plain "foo2") /\
  ~ UnknownField (json_unknown_field Quote_plain "foo2").
Proof.
  split; [reflexivity|]. split; [reflexivity|].
  apply (ReadJSON_unknown_field_raw Quote_plain script scripted_Decode
           strict_tools body_foo2 "foo2"); reflexivity.
Defined.

Lemma ReadJSON_one_value_witness :
  scripted_Decode (limit strict_tools)
    (negb (AllowUnkownFields strict_tools)) body_two_values 0%nat = None /\
  scripted_Decode (limit strict_tools)
    (negb (AllowUnkownFields strict_tools)) body_two_values 1%nat
    <> Some io_EOF /\
  ReadJSON Quote_plain script scripted_Decode strict_tools body_two_values
    = Some (errors_New "body must contain only one JSON value").
Proof.
  split; [reflexivity|]. split; [discriminate|].
  apply (ReadJSON_one_value Quote_plain script scripted_Decode
           strict_tools body_two_values); [reflexivity | discriminate].
Defined.

(** The runs of the tests: two values fail whether unknown fields are
    allowed or not, one value succeeds, and the unknown key comes back
    with the message of the decoder. *)
Example ReadJSON_runs :
  ReadJSON Quote_plain script scripted_Decode strict_tools body_two_values
    = Some (errors_New "body must contain only one JSON value") /\
  ReadJSON Quote_plain script scripted_Decode lax_tools body_two_values
    = Some (errors_New "body must contain only one JSON value") /\
  ReadJSON Quote_plain script scripted_Decode strict_tools body_one_value
    = None /\
  ReadJSON Quote_plain script scripted_Decode strict_tools body_foo2
    = Some (errorString
              ("json: unknown field " ++ quote_char ++ "foo2" ++ quote_char)).
Proof. repeat split. Qed.

End JsonRuns.

(** ** UploadFiles and UploadOneFile *)

Section UploadFacts.

Import Upload.

Variable L : Lib.

Ltac break_match :=
  match goal with
  | H : context [match ?x with _ => _ end] |- _ => destruct x eqn:?
  | H : context [if ?x then _ else _] |- _ => destruct x eqn:?
  end.

Ltac pairs :=
  repeat match goal with
         | H : (_, _) = (_, _) |- _ => injection H as H; subst
         | H : Returns _ = Returns _ |- _ => injection H as H; subst
         | H : Some _ = Some _ |- _ => injection H as H; subst
         end.

(** What the function literal returns: nil with every error, its
    parameter on success; and it appends one record to the captured
    variable on success and leaves it alone otherwise. *)
Lemma upload_part_returns (t : Tools) (uploadDir : string) (renameFile : bool)
    (hdr : FileHeader) (uploadeFiles uploadedFiles : list UploadedFile)
    (w : World) (fs outer : list UploadedFile) (err : option error)
    (w' : World) :
  upload_part L t uploadDir renameFile hdr uploadeFiles uploadedFiles w
    = (Returns (fs, err), outer, w') ->
  match err with
  | Some _ => fs = [] /\ outer = uploadedFiles
  | None =>
      fs = uploadeFiles /\
      exists f, outer = uploadedFiles ++ [f] /\
                OriginalFileName f = Filename hdr
  end.
Proof.
  unfold upload_part. intros H.
  repeat break_match; try discriminate; pairs; try (split; reflexivity).
  all: split; [reflexivity|]; eexists; split; reflexivity.
Qed.

Lemma range_headers_left (t : Tools) (uploadDir : string) (renameFile : bool)
    (fHeaders : list FileHeader) :
  forall (uploadedFiles : list UploadedFile) (w : World)
         (fs : list UploadedFile) (err : option error) (w' : World),
  range_headers L t uploadDir renameFile fHeaders uploadedFiles w
    = Left (Returns (fs, err)) w' ->
  fs = [] /\ err <> None.
Proof.
  induction fHeaders as [|hdr rest IH]; intros u w fs err w' H; simpl in H.
  - discriminate.
  - destruct (upload_part L t uploadDir renameFile hdr u u w)
      as [[[[fs1 err1]|reason] outer] w1] eqn:E; [|discriminate].
    apply upload_part_returns in E.
    destruct err1 as [e|].
    + injection H as <- <- <-. destruct E as [-> _]. split; congruence.
    + eauto.
Qed.

Lemma range_File_left (t : Tools) (uploadDir : string) (renameFile : bool)
    (File : list (string * list FileHeader)) :
  forall (uploadedFiles : list UploadedFile) (w : World)
         (fs : list UploadedFile) (err : option error) (w' : World),
  range_File L t uploadDir renameFile File uploadedFiles w
    = Left (Returns (fs, err)) w' ->
  fs = [] /\ err <> None.
Proof.
  induction File as [|[key fHeaders] rest IH]; intros u w fs err w' H;
    simpl in H.
  - discriminate.
  - destruct (range_headers L t uploadDir renameFile fHeaders u w)
      as [u1 w1|res w1] eqn:E.
    + eauto.
    + injection H as -> ->. eapply range_headers_left; eassumption.
Qed.

(** C1, as amended: whenever UploadFiles returns an error, after a part
    has failed as for any other reason, the sequence it returns with the
    error is nil; the records of the parts processed before are not
    returned. *)
Theorem UploadFiles_error_returns_nil (t : Tools) (r : Request)
    (uploadDir : string) (rename : list bool) (w : World)
    (fs : list UploadedFile) (err : error) (t' : Tools) (w' : World) :
  UploadFiles L t r uploadDir rename w = (Returns (fs, Some err), t', w') ->
  fs = [].
Proof.
  unfold UploadFiles. intros H.
  repeat break_match; try discriminate; pairs; try reflexivity.
  all: match goal with
  | E : range_File _ _ _ _ _ _ _ = Left _ _ |- _ =>
      apply range_File_left in E; tauto
  end.
Qed.

(** C4, as amended: UploadFiles, and UploadOneFile through it, leave
    AllowedFileTypes, MaxJSONSize and AllowUnkownFields as they were, and
    leave MaxFileSize as it was when it is not zero; when MaxFileSize is
    zero they store the default of 1 GiB in it. *)
Theorem UploadFiles_frame (t : Tools) (r : Request) (uploadDir : string)
    (rename : list bool) (w : World) :
  let default := if MaxFileSize t =? 0 then 1073741824 else MaxFileSize t in
  let after := snd (fst (UploadFiles L t r uploadDir rename w)) in
  let after_one := snd (fst (UploadOneFile L t r uploadDir rename w)) in
  (MaxFileSize after = default /\
   AllowedFileTypes after = AllowedFileTypes t /\
   MaxJSONSize after = MaxJSONSize t /\
   AllowUnkownFields after = AllowUnkownFields t) /\
  (MaxFileSize after_one = default /\
   AllowedFileTypes after_one = AllowedFileTypes t /\
   MaxJSONSize after_one = MaxJSONSize t /\
   AllowUnkownFields after_one = AllowUnkownFields t).
Proof.
  assert (forall rename',
            snd (fst (UploadFiles L t r uploadDir rename' w))
            = if MaxFileSize t =? 0
              then set_MaxFileSize t 1073741824 else t) as Hup.
  { intros rename'. unfold UploadFiles. cbv zeta.
    change (1024 * 1024 * 1024) with 1073741824.
    destruct (CreateDirIfNotExist L uploadDir w) as [[e|] w1];
      [reflexivity|].
    destruct (ParseMultipartForm r _); [reflexivity|].
    destruct (range_File _ _ _ _ _ _ _); reflexivity. }
  assert (snd (fst (UploadOneFile L t r uploadDir rename w))
          = if MaxFileSize t =? 0
            then set_MaxFileSize t 1073741824 else t) as Hone.
  { unfold UploadOneFile. cbv zeta.
    rewrite <- (Hup [match rename with b :: _ => b | [] => true end]).
    destruct (UploadFiles L t r uploadDir _ w)
      as [[[[fs [e|]]|reason] t1] w1]; try reflexivity.
    destruct fs; reflexivity. }
  cbv zeta. rewrite Hup, Hone.
  destruct (MaxFileSize t =? 0); repeat split.
Qed.

(** C4 as it is stated fails: a call of UploadFiles on a struct whose
    MaxFileSize is zero leaves 1073741824 in that field. *)
Lemma UploadFiles_writes_MaxFileSize :
  MaxFileSize any_type = 0 /\
  MaxFileSize
    (snd (fst (UploadFiles fair any_type (form [png_part]) "up" [] empty_world)))
  = 1073741824.
Proof. split; reflexivity. Qed.

Lemma range_headers_none (t : Tools) (uploadDir : string)
    (renameFile : bool) (uploadedFiles : list UploadedFile) (w : World) :
  range_headers L t uploadDir renameFile [] uploadedFiles w
  = Goes_on uploadedFiles w.
Proof. reflexivity. Qed.

Lemma range_File_no_headers (t : Tools) (uploadDir : string)
    (renameFile : bool) (File : list (string * list FileHeader))
    (uploadedFiles : list UploadedFile) (w : World) :
  List.concat (map snd File) = [] ->
  range_File L t uploadDir renameFile File uploadedFiles w
  = Goes_on uploadedFiles w.
Proof.
  induction File as [|[key fHeaders] rest IH]; simpl; intros H.
  - reflexivity.
  - apply app_eq_nil in H. destruct H as [-> H].
    rewrite range_headers_none. now apply IH.
Qed.

(** C2, on the code: when the directory is there or can be made and the
    form parses but holds no file, UploadFiles returns a nil slice with a
    nil error, and UploadOneFile panics on files[0]; it returns no
    error. *)
Theorem UploadOneFile_no_file_panics (t : Tools) (r : Request)
    (uploadDir : string) (rename : list bool) (w : World) :
  fst (CreateDirIfNotExist L uploadDir w) = None ->
  ParseMultipartForm r
    (if MaxFileSize t =? 0 then 1073741824 else MaxFileSize t) = None ->
  headers r = [] ->
  fst (fst (UploadOneFile L t r uploadDir rename w))
  = Panics "index out of range [0] with length 0".
Proof.
  intros Hdir Hparse Hnone.
  unfold UploadOneFile, UploadFiles. cbv zeta.
  change (1024 * 1024 * 1024) with 1073741824.
  destruct (CreateDirIfNotExist L uploadDir w) as [[e|] w1];
    simpl in Hdir; [discriminate|].
  assert (MaxFileSize
            (if MaxFileSize t =? 0
             then set_MaxFileSize t 1073741824 else t)
          = if MaxFileSize t =? 0 then 1073741824 else MaxFileSize t)
    as -> by (destruct (MaxFileSize t =? 0); reflexivity).
  rewrite Hparse.
  rewrite range_File_no_headers by exact Hnone.
  reflexivity.
Qed.

(** The destination of a part that is uploaded gets the handle after the
    one of the part, and is still open when the function literal has
    left; the handle of the part is closed. *)
Lemma upload_part_handles (t : Tools) (uploadDir : string)
    (renameFile : bool) (hdr : FileHeader)
    (uploadeFiles uploadedFiles : list UploadedFile) (w : World)
    (fs outer : list UploadedFile) (w' : World) :
  upload_part L t uploadDir renameFile hdr uploadeFiles uploadedFiles w
    = (Returns (fs, None), outer, w') ->
  open_handles w'
  = S (next_handle w)
      :: remove Nat.eq_dec (next_handle w) (open_handles w) /\
  next_handle w' = S (S (next_handle w)).
Proof.
  unfold upload_part, Open, Create, Copy, acquire. intros H.
  repeat break_match; try discriminate; pairs; simpl.
  all: destruct (Nat.eq_dec (next_handle w) (S (next_handle w)));
    [lia|].
  all: destruct (Nat.eq_dec (next_handle w) (next_handle w));
    [split; reflexivity | congruence].
Qed.

Lemma upload_part_leaks_destination (t : Tools) (uploadDir : string)
    (renameFile : bool) (hdr : FileHeader)
    (uploadeFiles uploadedFiles : list UploadedFile) (w : World)
    (fs outer : list UploadedFile) (w' : World) :
  upload_part L t uploadDir renameFile hdr uploadeFiles uploadedFiles w
    = (Returns (fs, None), outer, w') ->
  ~ In (next_handle w) (open_handles w') /\
  In (S (next_handle w)) (open_handles w').
Proof.
  intros H.
  destruct (upload_part_handles _ _ _ _ _ _ _ _ _ _ H) as [-> _]. split.
  - intros [Heq | Hin]; [lia|]. now apply remove_In in Hin.
  - now left.
Qed.

Lemma upload_part_fresh (t : Tools) (uploadDir : string)
    (renameFile : bool) (hdr : FileHeader)
    (uploadeFiles uploadedFiles : list UploadedFile) (w : World)
    (fs outer : list UploadedFile) (w' : World) :
  fresh w ->
  upload_part L t uploadDir renameFile hdr uploadeFiles uploadedFiles w
    = (Returns (fs, None), outer, w') ->
  open_handles w' = S (next_handle w) :: open_handles w /\ fresh w'.
Proof.
  intros Hw H. destruct (upload_part_handles _ _ _ _ _ _ _ _ _ _ H)
    as [Ho Hn].
  assert (remove Nat.eq_dec (next_handle w) (open_handles w)
          = open_handles w) as Hrem.
  { apply notin_remove. intros Hin. unfold fresh in Hw.
    rewrite Forall_forall in Hw. apply Hw in Hin. lia. }
  rewrite Hrem in Ho. split; [exact Ho|].
  unfold fresh. rewrite Ho, Hn. constructor; [lia|].
  eapply Forall_impl; [|exact Hw]. simpl. intros; lia.
Qed.

(** A loop over headers that goes on has uploaded every one of them: one
    record and one open handle more for each. *)
Lemma range_headers_goes_on (t : Tools) (uploadDir : string)
    (renameFile : bool) (fHeaders : list FileHeader) :
  forall (uploadedFiles : list UploadedFile) (w : World)
         (outer : list UploadedFile) (w' : World),
  fresh w ->
  range_headers L t uploadDir renameFile fHeaders uploadedFiles w
    = Goes_on outer w' ->
  fresh w' /\
  (exists added, outer = uploadedFiles ++ added /\
                 map OriginalFileName added = map Filename fHeaders) /\
  List.length (open_handles w')
  = (List.length (open_handles w) + List.length fHeaders)%nat.
Proof.
  induction fHeaders as [|hdr rest IH]; intros u w outer w' Hw H;
    simpl in H.
  - injection H as <- <-. split; [exact Hw|]. split; [|simpl; lia].
    exists []. now rewrite app_nil_r.
  - destruct (upload_part L t uploadDir renameFile hdr u u w)
      as [[[[fs1 [e|]]|reason] u1] w1] eqn:E; try discriminate.
    destruct (upload_part_fresh _ _ _ _ _ _ _ _ _ _ Hw E) as [Ho Hw1].
    apply upload_part_returns in E. destruct E as [_ (f & -> & Hf)].
    destruct (IH _ _ _ _ Hw1 H) as (Hw' & (added & -> & Hadded) & Hlen).
    split; [exact Hw'|]. split.
    + exists (f :: added). split.
      * now rewrite <- app_assoc.
      * simpl. now rewrite Hf, Hadded.
    + rewrite Hlen, Ho. simpl. lia.
Qed.

Lemma range_File_goes_on (t : Tools) (uploadDir : string)
    (renameFile : bool) (File : list (string * list FileHeader)) :
  forall (uploadedFiles : list UploadedFile) (w : World)
         (outer : list UploadedFile) (w' : World),
  fresh w ->
  range_File L t uploadDir renameFile File uploadedFiles w
    = Goes_on outer w' ->
  (exists added, outer = uploadedFiles ++ added /\
                 map OriginalFileName added
                 = map Filename (List.concat (map snd File))) /\
  List.length (open_handles w')
  = (List.length (open_handles w)
     + List.length (List.concat (map snd File)))%nat.
Proof.
  induction File as [|[key fHeaders] rest IH]; intros u w outer w' Hw H;
    simpl in H.
  - injection H as <- <-. split; [|simpl; lia].
    exists []. now rewrite app_nil_r.
  - destruct (range_headers L t uploadDir renameFile fHeaders u w)
      as [u1 w1|res w1] eqn:E; [|discriminate].
    destruct (range_headers_goes_on _ _ _ _ _ _ _ _ Hw E)
      as (Hw1 & (a1 & -> & Ha1) & Hlen1).
    destruct (IH _ _ _ _ Hw1 H) as ((a2 & -> & Ha2) & Hlen2).
    split.
    + exists (a1 ++ a2). split.
      * now rewrite <- app_assoc.
      * simpl. now rewrite !map_app, Ha1, Ha2.
    + rewrite Hlen2, Hlen1. simpl. rewrite length_app. lia.
Qed.

Lemma CreateDirIfNotExist_handles (uploadDir : string) (w w' : World)
    (err : option error) :
  CreateDirIfNotExist L uploadDir w = (err, w') ->
  open_handles w' = open_handles w /\ next_handle w' = next_handle w.
Proof.
  unfold CreateDirIfNotExist, MkdirAll. intros H.
  repeat break_match; pairs; split; reflexivity.
Qed.

(** When every part succeeds, UploadFiles returns one record for each
    part, in the order of the loops. *)
Lemma UploadFiles_success_records (t : Tools) (r : Request)
    (uploadDir : string) (rename : list bool) (w : World)
    (fs : list UploadedFile) (t' : Tools) (w' : World) :
  fresh w ->
  UploadFiles L t r uploadDir rename w = (Returns (fs, None), t', w') ->
  map OriginalFileName fs = map Filename (headers r) /\
  List.length (open_handles w')
  = (List.length (open_handles w) + List.length fs)%nat.
Proof.
  unfold UploadFiles, headers. intros Hw H. cbv zeta in H.
  destruct (CreateDirIfNotExist L uploadDir w) as [[e|] w1] eqn:Ed;
    [discriminate|].
  apply CreateDirIfNotExist_handles in Ed. destruct Ed as [Ho Hn].
  assert (fresh w1) as Hw1 by (unfold fresh; now rewrite Ho, Hn).
  destruct (ParseMultipartForm r _); [discriminate|].
  destruct (range_File L _ uploadDir _ (MultipartForm_File r) [] w1)
    as [u2 w2|res w2] eqn:E.
  - injection H as <- <- <-.
    destruct (range_File_goes_on _ _ _ _ _ _ _ _ Hw1 E)
      as ((added & -> & Ha) & Hlen).
    simpl. split; [exact Ha|].
    rewrite Hlen, Ho. f_equal.
    rewrite <- (length_map OriginalFileName), Ha. now rewrite length_map.
  - injection H as -> <- <-.
    apply range_File_left in E. destruct E as [_ E]. congruence.
Qed.

(** C6, on the code: UploadFiles leaves one handle open for every file
    it has uploaded, the handle of the destination file.  The deferred
    Close is called on the nil variable outfile, not on the file that
    os.Create returned; only the stream of the part is closed. *)
Theorem UploadFiles_leaks_destinations (t : Tools) (r : Request)
    (uploadDir : string) (rename : list bool) (w : World)
    (fs : list UploadedFile) (t' : Tools) (w' : World) :
  fresh w ->
  UploadFiles L t r uploadDir rename w = (Returns (fs, None), t', w') ->
  List.length (open_handles w')
  = (List.length (open_handles w) + List.length fs)%nat /\
  List.length fs = List.length (headers r).
Proof.
  intros Hw H.
  destruct (UploadFiles_success_records _ _ _ _ _ _ _ _ Hw H) as [Hrec Hlen].
  split; [exact Hlen|].
  rewrite <- (length_map OriginalFileName), Hrec. now rewrite length_map.
Qed.

Lemma skipn_repeat {A : Type} (x : A) (k n : nat) :
  skipn k (repeat x n) = repeat x (n - k).
Proof.
  revert n. induction k as [|k IH]; intros n; simpl.
  - now rewrite Nat.sub_0_r.
  - destruct n as [|n]; simpl; [reflexivity | apply IH].
Qed.

(** What is sniffed: the first bytes of the part, at most 512, followed by
    the zero bytes of the buffer that the read did not overwrite. *)
Lemma sniffed_padded (hdr : FileHeader) :
  read_fault hdr = None -> content hdr <> [] ->
  sniffed hdr
  = firstn 512 (content hdr)
      ++ repeat x00 (512 - Nat.min 512 (List.length (content hdr))) /\
  Read hdr 0 (make_bytes 512)
  = (sniffed hdr, Nat.min 512 (List.length (content hdr)), None).
Proof.
  intros Hread Hne. unfold sniffed, Read. rewrite Hread.
  change (skipn 0 (content hdr)) with (content hdr).
  destruct (content hdr) as [|b rest] eqn:E; [congruence|].
  cbv zeta. unfold make_bytes.
  rewrite repeat_length, skipn_repeat, length_firstn.
  simpl fst. split; reflexivity.
Qed.

End UploadFacts.

Section UploadRuns.

Import Upload.

(** C1 as it is stated fails: the PNG part alone is uploaded and
    recorded; followed by a part whose type is rejected, it is still
    written to the directory, but UploadFiles returns the error with a nil
    slice, without the record of the PNG part. *)
Lemma UploadFiles_drops_records :
  fst (fst (UploadFiles fair only_png (form [png_part]) "up" [false]
              empty_world))
  = Returns ([mkUploadedFile "a.png" "a.png" 10], None) /\
  fst (fst (UploadFiles fair only_png (form [png_part; text_part]) "up"
              [false] empty_world))
  = Returns ([], Some (errors_New "the uploaded file type is not permitted"))
  /\
  lookup_file "up/a.png"
    (files (snd (UploadFiles fair only_png (form [png_part; text_part]) "up"
                   [false] empty_world)))
  = Some (content png_part).
Proof. repeat split. Qed.

Lemma UploadFiles_error_returns_nil_witness :
  exists (fs : list UploadedFile) (err : error) (t' : Tools) (w' : World),
    UploadFiles fair only_png (form [png_part; text_part]) "up" [false]
      empty_world
    = (Returns (fs, Some err), t', w') /\
    fs = [].
Proof.
  do 4 eexists. split; [vm_compute; reflexivity|].
  apply (UploadFiles_error_returns_nil fair only_png
           (form [png_part; text_part]) "up" [false] empty_world []
           (errors_New "the uploaded file type is not permitted")
           (snd (fst (UploadFiles fair only_png
                        (form [png_part; text_part]) "up" [false]
                        empty_world)))
           (snd (UploadFiles fair only_png (form [png_part; text_part]) "up"
                   [false] empty_world))).
  vm_compute. reflexivity.
Defined.

Lemma UploadOneFile_no_file_panics_witness :
  fst (CreateDirIfNotExist fair "up" empty_world) = None /\
  ParseMultipartForm no_file
    (if MaxFileSize any_type =? 0 then 1073741824 else MaxFileSize any_type)
  = None /\
  headers no_file = [] /\
  fst (fst (UploadOneFile fair any_type no_file "up" [] empty_world))
  = Panics "index out of range [0] with length 0".
Proof.
  split; [reflexivity|]. split; [reflexivity|]. split; [reflexivity|].
  apply (UploadOneFile_no_file_panics fair any_type no_file "up" []
           empty_world); reflexivity.
Defined.

(** C5 as it is stated fails.  The five bytes of the text part are
    sniffed inside a buffer of 512 bytes, not alone; the sniffer finds
    text in the five bytes but binary data in the buffer, so the part is
    rejected by an allow-list that admits text.  And the empty part fails
    with io.EOF though every type is allowed. *)
Lemma upload_sniffs_whole_buffer :
  (sniffed text_part <> firstn 512 (content text_part) /\
   List.length (sniffed text_part) = 512%nat) /\
  (sniff (firstn 512 (content text_part)) = "text/plain; charset=utf-8"%string
   /\ sniff (sniffed text_part) = "application/octet-stream"%string
   /\ fst (fst (UploadFiles fair only_text (form [text_part]) "up" [false]
                  empty_world))
      = Returns
          ([], Some (errors_New "the uploaded file type is not permitted")))
  /\
  fst (fst (UploadFiles fair any_type (form [empty_part]) "up" [false]
              empty_world))
  = Returns ([], Some io_EOF).
Proof.
  split; [split; [vm_compute; discriminate | reflexivity]|].
  split; [repeat split|reflexivity].
Qed.

Lemma UploadFiles_leaks_destinations_witness :
  fresh empty_world /\
  exists (t' : Tools) (w' : World),
    UploadFiles fair only_png (form [png_part]) "up" [false] empty_world
    = (Returns ([mkUploadedFile "a.png" "a.png" 10], None), t', w') /\
    open_handles w' = [1%nat] /\
    List.length (open_handles w')
    = (List.length (open_handles empty_world)
       + List.length [mkUploadedFile "a.png" "a.png" 10])%nat /\
    List.length [mkUploadedFile "a.png" "a.png" 10]
    = List.length (headers (form [png_part])).
Proof.
  split; [constructor|].
  do 2 eexists. split; [vm_compute; reflexivity|].
  split; [reflexivity|].
  apply (UploadFiles_leaks_destinations fair only_png (form [png_part]) "up"
           [false] empty_world [mkUploadedFile "a.png" "a.png" 10]
           (snd (fst (UploadFiles fair only_png (form [png_part]) "up"
                        [false] empty_world)))
           (snd (UploadFiles fair only_png (form [png_part]) "up" [false]
                   empty_world))).
  - constructor.
  - vm_compute. reflexivity.
Defined.

End UploadRuns.

(** * Further properties *)

(** ** Slugify: the shape of a slug *)

Section SlugShapeFacts.

Import Slug Shape.

Local Open Scope N_scope.

Variable To_LowerCase : rune -> rune.

Lemma slug_rune_cases (r : rune) :
  slug_rune r = true ->
  (re_class r = false /\ r <> dash /\ r < 128 /\ is_upper r = false)
  \/ r = dash.
Proof.
  unfold slug_rune, re_class, is_lower, is_digit, is_upper, between, dash.
  intros Hslug.
  destruct (N.leb_spec 97 r), (N.leb_spec r 122), (N.leb_spec 48 r),
    (N.leb_spec r 57), (N.leb_spec 65 r), (N.leb_spec r 90),
    (N.eqb_spec r 45); simpl in *; try discriminate;
    try (right; assumption); left; repeat split; try lia.
Qed.

Lemma re_class_dash : re_class dash = true.
Proof. reflexivity. Qed.

Lemma not_class_slug_rune (r : rune) :
  re_class r = false -> slug_rune r = true /\ r <> dash.
Proof.
  intros H. split.
  - unfold slug_rune. unfold re_class in H.
    apply negb_false_iff in H. now rewrite H.
  - intros ->. rewrite re_class_dash in H. discriminate.
Qed.

Lemma ReplaceAll_slug_runes (l : list rune) : forall b,
  Forall (fun r => slug_rune r = true) (ReplaceAll b l).
Proof.
  induction l as [|c rest IH]; intros b; simpl; [constructor|].
  destruct (re_class c) eqn:Hc.
  - destruct b; [apply IH|]. constructor; [reflexivity | apply IH].
  - constructor; [now apply not_class_slug_rune | apply IH].
Qed.

Lemma ReplaceAll_single_dashes (l : list rune) : forall b,
  single_dashes (ReplaceAll b l) /\
  (b = true -> hd_error (ReplaceAll b l) <> Some dash).
Proof.
  induction l as [|c rest IH]; intros b; simpl.
  - split; [exact I | discriminate].
  - destruct (re_class c) eqn:Hc.
    + destruct (IH true) as [Hs Hh]. destruct b.
      * split; [exact Hs | intros _; now apply Hh].
      * split; [|discriminate].
        specialize (Hh eq_refl).
        destruct (ReplaceAll true rest) as [|x more] eqn:E; [exact I|].
        simpl. split; [|exact Hs].
        intros [_ ->]. now apply Hh.
    + destruct (IH false) as [Hs _].
      destruct (not_class_slug_rune c Hc) as [_ Hnd].
      split.
      * destruct (ReplaceAll false rest) as [|x more] eqn:E; [exact I|].
        simpl. split; [|exact Hs]. intros [Hd _]. contradiction.
      * intros _. simpl. congruence.
Qed.

(** [TrimLeft] keeps a suffix, whose head is no dash. *)
Lemma TrimLeft_suffix (l : list rune) :
  exists dashes, l = dashes ++ TrimLeft l /\
                 Forall (fun r => r = dash) dashes.
Proof.
  induction l as [|c rest (d & Hd & Hall)]; simpl.
  - exists []. split; [reflexivity | constructor].
  - destruct (N.eqb_spec c dash) as [->|Hne].
    + exists (dash :: d). split; [simpl; now rewrite <- Hd|].
      now constructor.
    + exists []. split; [reflexivity | constructor].
Qed.

Lemma TrimLeft_head (l : list rune) : hd_error (TrimLeft l) <> Some dash.
Proof.
  induction l as [|c rest IH]; simpl; [discriminate|].
  destruct (N.eqb_spec c dash) as [->|Hne]; [exact IH|].
  simpl. congruence.
Qed.

Lemma TrimLeft_id (l : list rune) :
  hd_error l <> Some dash -> TrimLeft l = l.
Proof.
  destruct l as [|c rest]; simpl; [reflexivity|].
  intros H. destruct (N.eqb_spec c dash) as [->|Hne]; congruence.
Qed.

Lemma single_dashes_app_r (a l : list rune) :
  single_dashes (a ++ l) -> single_dashes l.
Proof.
  induction a as [|x a IH]; simpl; [tauto|].
  destruct (a ++ l) eqn:E; intros H.
  - destruct a; [simpl in E; subst; exact I | discriminate].
  - apply IH. tauto.
Qed.

Lemma single_dashes_trailing (l : list rune) :
  single_dashes l -> single_dashes (spec_trim_trailing l).
Proof.
  induction l as [|c rest IH]; simpl; [tauto|].
  intros H.
  assert (single_dashes rest) as Hr by (destruct rest; [exact I | tauto]).
  specialize (IH Hr).
  destruct (spec_trim_trailing rest) as [|x kept] eqn:E.
  - destruct (c =? dash); exact I.
  - simpl. split; [|exact IH].
    destruct rest as [|y rest']; [discriminate|].
    assert (x = y) as ->.
    { simpl in E. destruct (spec_trim_trailing rest');
        [destruct (y =? dash); [discriminate | congruence] | congruence]. }
    tauto.
Qed.

Lemma spec_trim_trailing_head (l : list rune) :
  hd_error l <> Some dash ->
  hd_error (spec_trim_trailing l) = hd_error l.
Proof.
  destruct l as [|c rest]; simpl; [reflexivity|].
  intros H. destruct (spec_trim_trailing rest); [|reflexivity].
  destruct (N.eqb_spec c dash) as [->|Hne]; [congruence | reflexivity].
Qed.

Lemma In_TrimRight (l : list rune) (x : rune) :
  In x (TrimRight l) -> In x l.
Proof.
  unfold TrimRight. intros H. apply In_rev in H.
  destruct (TrimLeft_suffix (rev l)) as (d & Hd & _).
  apply In_rev. rewrite Hd. apply in_or_app. now right.
Qed.

(** What [Trim] makes of a list of slug characters without double
    dashes: a slug, unless nothing is left. *)
Lemma Trim_shape (l : list rune) :
  Forall (fun r => slug_rune r = true) l -> single_dashes l ->
  Trim l <> [] -> slug_shape (Trim l).
Proof.
  intros Hall Hs Hne. unfold slug_shape.
  destruct (TrimLeft_suffix l) as (d & Hd & _).
  assert (single_dashes (TrimLeft l)) as Hs1
    by (apply (single_dashes_app_r d); now rewrite <- Hd).
  split; [exact Hne|]. split; [|split; [|split]].
  - rewrite Forall_forall in *. intros x Hx. apply Hall.
    apply In_TrimRight in Hx. rewrite Hd. apply in_or_app. now right.
  - unfold Trim. rewrite TrimRight_spec, spec_trim_trailing_head
      by apply TrimLeft_head. apply TrimLeft_head.
  - unfold Trim, TrimRight. rewrite rev_involutive. apply TrimLeft_head.
  - unfold Trim. rewrite TrimRight_spec. now apply single_dashes_trailing.
Qed.

(** The bytes of a string of ASCII runes are the runes. *)
Lemma EncodeRune_ascii (rs : list rune) :
  Forall (fun r => r < 128) rs -> flat_map EncodeRune rs = rs.
Proof.
  induction 1 as [|r rs Hr _ IH]; simpl; [reflexivity|].
  rewrite IH. unfold EncodeRune, between.
  destruct (N.leb_spec 55296 r); [lia|]. simpl.
  destruct (N.ltb_spec 1114111 r); [lia|].
  destruct (N.leb_spec r 127); [reflexivity | lia].
Qed.

Lemma bytes_of_string_of_runes (rs : list rune) :
  Forall (fun r => r < 128) rs -> bytes_of (string_of_runes rs) = rs.
Proof.
  intros H. unfold bytes_of, string_of_runes.
  rewrite list_ascii_of_string_of_list_ascii, EncodeRune_ascii by exact H.
  induction H as [|r rs Hr _ IH]; simpl; [reflexivity|].
  rewrite IH, N_ascii_embedding by lia. reflexivity.
Qed.

Lemma decode_ascii (bs : list N) : forall fuel,
  Forall (fun b => b < 128) bs -> (List.length bs <= fuel)%nat ->
  decode fuel bs = bs.
Proof.
  induction bs as [|b bs IH]; intros fuel H Hfuel.
  - destruct fuel; reflexivity.
  - destruct fuel as [|fuel]; simpl in Hfuel; [lia|].
    inversion H as [|? ? Hb Hbs]; subst. simpl. unfold DecodeRune.
    destruct (N.ltb_spec b 128); [|lia].
    rewrite IH by (assumption || lia). reflexivity.
Qed.

Lemma runes_ascii (s : string) :
  Forall (fun b => b < 128) (bytes_of s) -> runes s = bytes_of s.
Proof. intros H. unfold runes. now apply decode_ascii. Qed.

Lemma slug_runes_ascii (l : list rune) :
  Forall (fun r => slug_rune r = true) l -> Forall (fun r => r < 128) l.
Proof.
  intros H. eapply Forall_impl; [|exact H]. simpl. intros r Hr.
  destruct (slug_rune_cases r Hr) as [(_ & _ & Hlt & _)| ->];
    [exact Hlt | reflexivity].
Qed.

Lemma string_length_of_runes (rs : list rune) :
  Forall (fun r => r < 128) rs ->
  String.length (string_of_runes rs) = List.length rs.
Proof.
  intros H. unfold string_of_runes.
  rewrite EncodeRune_ascii by exact H. clear H.
  induction rs as [|r rs IH]; simpl; [reflexivity | now rewrite IH].
Qed.

(** What [Slugify] returns without an error, as a list of runes. *)
Lemma Slugify_some (s out : string) :
  Slugify To_LowerCase s = (out, None) ->
  out = string_of_runes (Trim (ReplaceAllString (ToLower To_LowerCase s)))
  /\ slug_shape (Trim (ReplaceAllString (ToLower To_LowerCase s))).
Proof.
  unfold Slugify. intros H.
  destruct (String.length s =? 0)%nat; [discriminate|].
  destruct (Trim (ReplaceAllString (ToLower To_LowerCase s))) as [|r l] eqn:E;
    [discriminate|].
  simpl in H. injection H as <-. split; [reflexivity|].
  rewrite <- E. apply Trim_shape.
  - apply ReplaceAll_slug_runes.
  - apply ReplaceAll_single_dashes.
  - rewrite E. discriminate.
Qed.

(** X1: a slug that Slugify returns is not empty, consists of the bytes
    a-z, 0-9 and dash only, neither starts nor ends with a dash, and has
    no two dashes in a row. *)
Theorem Slugify_shape (s out : string) :
  Slugify To_LowerCase s = (out, None) -> slug_shape (bytes_of out).
Proof.
  intros H. destruct (Slugify_some s out H) as [-> Hshape].
  rewrite bytes_of_string_of_runes; [exact Hshape|].
  apply slug_runes_ascii. apply Hshape.
Qed.

Lemma ReplaceAll_id (l : list rune) : forall b,
  Forall (fun r => slug_rune r = true) l -> single_dashes l ->
  (b = true -> hd_error l <> Some dash) ->
  ReplaceAll b l = l.
Proof.
  induction l as [|c rest IH]; intros b Hall Hs Hh; simpl; [reflexivity|].
  inversion Hall as [|? ? Hc Hrest]; subst.
  assert (single_dashes rest) as Hsr by (destruct rest; [exact I | apply Hs]).
  destruct (slug_rune_cases c Hc) as [(Hnc & _)| ->].
  - rewrite Hnc. f_equal. apply IH; [assumption | assumption | discriminate].
  - rewrite re_class_dash. destruct b.
    + exfalso. now apply Hh.
    + f_equal. apply IH; [assumption | assumption |].
      intros _. destruct rest as [|x rest']; [discriminate|].
      simpl in *. intros [= ->]. tauto.
Qed.

Lemma ToLower_id (l : list rune) :
  Forall (fun r => slug_rune r = true) l ->
  map (unicode_ToLower To_LowerCase) l = l.
Proof.
  induction 1 as [|r l Hr _ IH]; simpl; [reflexivity|].
  rewrite IH. f_equal. unfold unicode_ToLower.
  destruct (slug_rune_cases r Hr) as [(_ & _ & Hlt & Hup)| ->];
    [|reflexivity].
  destruct (N.leb_spec r 127); [|lia]. now rewrite Hup.
Qed.

(** X2: Slugify is idempotent: a slug that it returns is its own slug. *)
Theorem Slugify_idempotent (s out : string) :
  Slugify To_LowerCase s = (out, None) ->
  Slugify To_LowerCase out = (out, None).
Proof.
  intros H. destruct (Slugify_some s out H) as [Hout Hshape].
  set (slug := Trim (ReplaceAllString (ToLower To_LowerCase s))) in *.
  destruct Hshape as (Hne & Hall & Hhd & Hlast & Hs).
  pose proof (slug_runes_ascii slug Hall) as Hascii.
  assert (ToLower To_LowerCase out = slug) as Hlow.
  { unfold ToLower. rewrite runes_ascii; rewrite Hout, bytes_of_string_of_runes;
      try assumption. now apply ToLower_id. }
  unfold Slugify. rewrite Hlow.
  assert (Trim (ReplaceAllString slug) = slug) as ->.
  { unfold ReplaceAllString. rewrite ReplaceAll_id;
      [|assumption | assumption | discriminate].
    unfold Trim. rewrite (TrimLeft_id slug Hhd).
    unfold TrimRight. now rewrite TrimLeft_id, rev_involutive. }
  rewrite Hout at 1. rewrite string_length_of_runes by exact Hascii.
  destruct slug as [|r l]; [congruence|]. simpl. now rewrite Hout.
Qed.

Lemma In_ReplaceAll (c : rune) (l : list rune) : forall b,
  In c l -> re_class c = false -> In c (ReplaceAll b l).
Proof.
  induction l as [|x rest IH]; intros b Hin Hc; simpl in *; [tauto|].
  destruct Hin as [->|Hin].
  - rewrite Hc. now left.
  - destruct (re_class x); [destruct b|]; simpl; auto.
Qed.

Lemma In_TrimLeft (c : rune) (l : list rune) :
  In c l -> c <> dash -> In c (TrimLeft l).
Proof.
  intros Hin Hc. destruct (TrimLeft_suffix l) as (d & Hd & Hall).
  rewrite Hd in Hin. apply in_app_or in Hin. destruct Hin as [Hin|Hin];
    [|exact Hin].
  rewrite Forall_forall in Hall. apply Hall in Hin. contradiction.
Qed.

Lemma In_Trim (c : rune) (l : list rune) :
  In c l -> c <> dash -> In c (Trim l).
Proof.
  intros Hin Hc. unfold Trim, TrimRight.
  rewrite <- In_rev. apply In_TrimLeft; [|exact Hc].
  rewrite <- In_rev. now apply In_TrimLeft.
Qed.

Lemma ReplaceAll_all_outside (l : list rune) :
  Forall (fun r => re_class r = true) l ->
  ReplaceAll true l = [] /\
  (ReplaceAll false l = [] \/ ReplaceAll false l = [dash]).
Proof.
  induction 1 as [|r l Hr _ [IHt IHf]]; simpl; [auto|].
  rewrite Hr, IHt. auto.
Qed.

(** X3: on a non-empty input Slugify fails, with EmptyResult, exactly
    when every rune of the lower-cased input is outside a-z and 0-9;
    otherwise it returns a slug and no error. *)
Theorem Slugify_fails_iff (s : string) :
  s <> ""%string ->
  (Slugify To_LowerCase s = (""%string, Some EmptyResult) <->
   Forall (fun r => outside (unicode_ToLower To_LowerCase r) = true)
     (runes s)) /\
  (Slugify To_LowerCase s <> (""%string, Some EmptyResult) ->
   exists out, Slugify To_LowerCase s = (out, None)).
Proof.
  intros Hs. unfold Slugify.
  destruct s as [|a s]; [congruence|]. simpl String.length. simpl Nat.eqb.
  cbv zeta. unfold ToLower.
  rewrite <- (Forall_map (unicode_ToLower To_LowerCase)
                (fun r => outside r = true)).
  set (l := map (unicode_ToLower To_LowerCase) (runes (String a s))).
  split; [split|].
  - intros H.
    destruct (Trim (ReplaceAllString l)) as [|r m] eqn:E; [|discriminate].
    apply Forall_forall. intros c Hc.
    destruct (outside c) eqn:Hout; [reflexivity|exfalso].
    assert (In c (Trim (ReplaceAllString l))) as Hin.
    { apply In_Trim; [now apply In_ReplaceAll|].
      now apply (not_class_slug_rune c). }
    rewrite E in Hin. exact Hin.
  - intros Hall.
    destruct (ReplaceAll_all_outside l Hall) as [_ [E|E]];
      unfold ReplaceAllString; rewrite E; reflexivity.
  - intros H.
    destruct (Trim (ReplaceAllString l)) as [|r m]; [now elim H|].
    eexists. reflexivity.
Qed.

(** X4: on an input of ASCII bytes Slugify does not consult the case
    table of package unicode. *)
Theorem Slugify_ascii_table_free (T : rune -> rune) (s : string) :
  Forall (fun b => b < 128) (bytes_of s) ->
  Slugify To_LowerCase s = Slugify T s.
Proof.
  intros H. unfold Slugify, ToLower. rewrite (runes_ascii s H).
  assert (map (unicode_ToLower To_LowerCase) (bytes_of s)
          = map (unicode_ToLower T) (bytes_of s)) as ->; [|reflexivity].
  apply map_ext_in. intros r Hr. rewrite Forall_forall in H.
  specialize (H r Hr). unfold unicode_ToLower.
  destruct (N.leb_spec r 127); [reflexivity | lia].
Qed.

End SlugShapeFacts.

Lemma Slugify_shape_witness :
  Slug.Slugify Slug.caseless "Hello, World!" = ("hello-world"%string, None) /\
  Shape.slug_shape (Slug.bytes_of "hello-world").
Proof.
  split; [reflexivity|].
  apply (Slugify_shape Slug.caseless "Hello, World!" "hello-world").
  reflexivity.
Defined.

Lemma Slugify_idempotent_witness :
  Slug.Slugify Slug.caseless "Hello, World!" = ("hello-world"%string, None) /\
  Slug.Slugify Slug.caseless "hello-world" = ("hello-world"%string, None).
Proof.
  split; [reflexivity|].
  apply (Slugify_idempotent Slug.caseless "Hello, World!" "hello-world").
  reflexivity.
Defined.

Lemma Slugify_fails_iff_witness :
  "+=!"%string <> ""%string /\
  (Slug.Slugify Slug.caseless "+=!" = (""%string, Some Slug.EmptyResult) <->
   Forall (fun r => Slug.outside (Slug.unicode_ToLower Slug.caseless r) = true)
     (Slug.runes "+=!")) /\
  (Slug.Slugify Slug.caseless "+=!" <> (""%string, Some Slug.EmptyResult) ->
   exists out, Slug.Slugify Slug.caseless "+=!" = (out, None)).
Proof.
  split; [discriminate|].
  apply (Slugify_fails_iff Slug.caseless "+=!"). discriminate.
Defined.

Lemma Slugify_ascii_table_free_witness :
  Forall (fun b => (b < 128)%N) (Slug.bytes_of "Go Lang") /\
  Slug.Slugify Slug.caseless "Go Lang"
  = Slug.Slugify (fun _ => 97%N) "Go Lang".
Proof.
  assert (Forall (fun b => (b < 128)%N) (Slug.bytes_of "Go Lang")) as H
    by (repeat (constructor; [reflexivity|]); constructor).
  split; [exact H|].
  apply (Slugify_ascii_table_free Slug.caseless (fun _ => 97%N) "Go Lang" H).
Defined.

(** ** The upload pipeline: what is stored and what is left behind *)

Section UploadStoreFacts.

Import Upload Shape.

Variable L : Lib.

Ltac split_match :=
  match goal with
  | H : context [match ?x with _ => _ end] |- _ => destruct x eqn:?
  | H : context [if ?x then _ else _] |- _ => destruct x eqn:?
  end.

Ltac same :=
  repeat match goal with
         | H : (_, _) = (_, _) |- _ => injection H as H; subst
         | H : Returns _ = Returns _ |- _ => injection H as H; subst
         | H : Some _ = Some _ |- _ => injection H as H; subst
         | H : inl _ = inl _ |- _ => injection H as H; subst
         end.

Lemma lookup_file_head (path : string) (data : list byte)
    (fs : list (string * list byte)) :
  lookup_file path ((path, data) :: fs) = Some data.
Proof. unfold lookup_file. simpl. now rewrite String.eqb_refl. Qed.

Lemma RandomString_returns (draw : Random.entropy) (k : nat) (n : Z)
    (rnd : string) :
  Random.RandomString draw k n = Returns rnd ->
  0 <= n /\
  rnd = string_of_list_ascii
          (Random.fill (Random.runes_of Random.randomStringSource) draw k
             (Z.to_nat n)).
Proof.
  unfold Random.RandomString.
  destruct (Z.ltb_spec n 0) as [Hneg|Hpos]; [discriminate|].
  intros Hret. split; [lia|]. now injection Hret.
Qed.

(** The 25 characters of a new name. *)
Lemma RandomString_25 (draw : Random.entropy) (k : nat) (rnd : string) :
  Random.RandomString draw k 25 = Returns rnd ->
  String.length rnd = 25%nat /\
  Forall (fun c => In c (Random.runes_of Random.randomStringSource))
    (Random.runes_of rnd).
Proof.
  intros H. apply RandomString_returns in H. destruct H as [_ ->].
  split.
  - now rewrite string_length_of_list, fill_length.
  - unfold Random.runes_of at 2.
    rewrite list_ascii_of_string_of_list_ascii. apply Forall_forall.
    intros c. apply fill_In. discriminate.
Qed.

(** A part that is uploaded: the record appended, the file written and
    the draws made. *)
Lemma upload_part_stores (t : Tools) (uploadDir : string)
    (renameFile : bool) (hdr : FileHeader)
    (uploadeFiles uploadedFiles : list UploadedFile) (w : World)
    (fs outer : list UploadedFile) (w' : World) :
  upload_part L t uploadDir renameFile hdr uploadeFiles uploadedFiles w
    = (Returns (fs, None), outer, w') ->
  exists name : string,
    outer = uploadedFiles
              ++ [mkUploadedFile name (Filename hdr)
                    (Z.of_nat (List.length (content hdr)))] /\
    files w' = (filepath_Join L uploadDir name, content hdr)
                 :: (filepath_Join L uploadDir name, []) :: files w /\
    (renameFile = false -> name = Filename hdr) /\
    (renameFile = true ->
     exists rnd, Random.RandomString (draw L) (drawn w) 25 = Returns rnd /\
                 name = (rnd ++ filepath_Ext (Filename hdr))%string).
Proof.
  unfold upload_part, Open, Seek, Create, Copy, acquire. intros H.
  repeat split_match; try discriminate; same; simpl.
  all: eexists; split; [reflexivity|]; split; [reflexivity|].
  all: split; [try discriminate; reflexivity|].
  all: try (intros Hno; discriminate Hno).
  all: intros _; eexists; split; [simpl in *; eassumption | reflexivity].
Qed.

(** Whatever happens to a part, files are only added. *)
Lemma upload_part_adds_files (t : Tools) (uploadDir : string)
    (renameFile : bool) (hdr : FileHeader)
    (uploadeFiles uploadedFiles : list UploadedFile) (w : World)
    (res : outcome part_return) (outer : list UploadedFile) (w' : World) :
  upload_part L t uploadDir renameFile hdr uploadeFiles uploadedFiles w
    = (res, outer, w') ->
  exists added, files w' = added ++ files w.
Proof.
  unfold upload_part, Open, Seek, Create, Copy, acquire. intros H.
  repeat split_match; try discriminate; same; simpl;
    first [ now exists [] | now exists [(s, [])]
          | eexists [_; _]; reflexivity | eexists [_]; reflexivity ].
Qed.

Lemma upload_part_recorded (t : Tools) (uploadDir : string)
    (renameFile : bool) (hdr : FileHeader)
    (uploadeFiles uploadedFiles : list UploadedFile) (w : World)
    (fs outer : list UploadedFile) (w' : World) :
  upload_part L t uploadDir renameFile hdr uploadeFiles uploadedFiles w
    = (Returns (fs, None), outer, w') ->
  exists f, outer = uploadedFiles ++ [f] /\
            recorded renameFile f hdr /\
            files w' = written L uploadDir [f] [hdr] ++ files w.
Proof.
  intros H. apply upload_part_stores in H.
  destruct H as (name & -> & Hfiles & Hkeep & Hnew).
  eexists. split; [reflexivity|]. split; [|exact Hfiles].
  split; [reflexivity|]. split; [reflexivity|]. simpl.
  destruct renameFile.
  - destruct (Hnew eq_refl) as (rnd & Hrnd & ->).
    exists rnd. split; [reflexivity|]. now apply RandomString_25 in Hrnd.
  - now apply Hkeep.
Qed.

Lemma written_snoc (uploadDir : string) (fs : list UploadedFile)
    (hdrs : list FileHeader) (f : UploadedFile) (hdr : FileHeader) :
  List.length fs = List.length hdrs ->
  written L uploadDir (fs ++ [f]) (hdrs ++ [hdr])
  = written L uploadDir [f] [hdr] ++ written L uploadDir fs hdrs.
Proof.
  revert hdrs. induction fs as [|g fs IH]; intros [|h hdrs] Hlen;
    try discriminate; simpl in *.
  - reflexivity.
  - rewrite IH by lia. simpl. reflexivity.
Qed.

(** A loop over headers that goes on has recorded and written every one
    of them. *)
Lemma range_headers_recorded (t : Tools) (uploadDir : string)
    (renameFile : bool) (fHeaders : list FileHeader) :
  forall (uploadedFiles : list UploadedFile) (w : World)
         (outer : list UploadedFile) (w' : World),
  range_headers L t uploadDir renameFile fHeaders uploadedFiles w
    = Goes_on outer w' ->
  exists added,
    outer = uploadedFiles ++ added /\
    Forall2 (recorded renameFile) added fHeaders /\
    files w' = written L uploadDir added fHeaders ++ files w.
Proof.
  induction fHeaders as [|hdr rest IH]; intros u w outer w' H; simpl in H.
  - injection H as <- <-. exists []. rewrite app_nil_r.
    split; [reflexivity|]. split; [constructor | reflexivity].
  - destruct (upload_part L t uploadDir renameFile hdr u u w)
      as [[[[fs1 [e|]]|reason] u1] w1] eqn:E; try discriminate.
    apply upload_part_recorded in E. destruct E as (f & -> & Hf & Hw1).
    destruct (IH _ _ _ _ H) as (added & -> & Hadded & Hw').
    exists (f :: added). split; [now rewrite <- app_assoc|].
    split; [now constructor|].
    rewrite Hw', Hw1. simpl. now rewrite <- app_assoc.
Qed.

Lemma range_headers_app (t : Tools) (uploadDir : string)
    (renameFile : bool) (hs1 hs2 : list FileHeader) :
  forall (uploadedFiles : list UploadedFile) (w : World),
  range_headers L t uploadDir renameFile (hs1 ++ hs2) uploadedFiles w
  = match range_headers L t uploadDir renameFile hs1 uploadedFiles w with
    | Goes_on outer w' =>
        range_headers L t uploadDir renameFile hs2 outer w'
    | Left result w' => Left result w'
    end.
Proof.
  induction hs1 as [|hdr rest IH]; intros u w; simpl; [reflexivity|].
  destruct (upload_part L t uploadDir renameFile hdr u u w)
    as [[[[fs1 [e|]]|reason] u1] w1]; try reflexivity.
  apply IH.
Qed.

(** The two loops are one loop over all the headers. *)
Lemma range_File_flat (t : Tools) (uploadDir : string) (renameFile : bool)
    (File : list (string * list FileHeader)) :
  forall (uploadedFiles : list UploadedFile) (w : World),
  range_File L t uploadDir renameFile File uploadedFiles w
  = range_headers L t uploadDir renameFile (List.concat (map snd File))
      uploadedFiles w.
Proof.
  induction File as [|[key fHeaders] rest IH]; intros u w; simpl;
    [reflexivity|].
  rewrite range_headers_app.
  destruct (range_headers L t uploadDir renameFile fHeaders u w);
    [apply IH | reflexivity].
Qed.

(** [UploadFiles] in terms of the one loop. *)
Lemma UploadFiles_flat (t : Tools) (r : Request) (uploadDir : string)
    (rename : list bool) (w : World) :
  UploadFiles L t r uploadDir rename w =
    let renameFile := match rename with b :: _ => b | [] => true end in
    let t' :=
      if MaxFileSize t =? 0 then set_MaxFileSize t 1073741824 else t in
    match CreateDirIfNotExist L uploadDir w with
    | (Some err, w1) => (Returns ([], Some err), t', w1)
    | (None, w1) =>
        match ParseMultipartForm r (MaxFileSize t') with
        | Some _ =>
            (Returns ([], Some (errors_New "the uploaded file is too big")),
             t', w1)
        | None =>
            match range_headers L t' uploadDir renameFile (headers r) [] w1
            with
            | Left result w2 => (result, t', w2)
            | Goes_on fs w2 => (Returns (fs, None), t', w2)
            end
        end
    end.
Proof.
  unfold UploadFiles, headers. cbv zeta.
  change (1024 * 1024 * 1024) with 1073741824.
  destruct (CreateDirIfNotExist L uploadDir w) as [[e|] w1]; [reflexivity|].
  destruct (ParseMultipartForm r _); [reflexivity|].
  now rewrite range_File_flat.
Qed.

(** X5: the grouping of the parts into form fields does not matter to
    UploadFiles: two forms with the same parse result and the same parts
    in the same order are uploaded alike. *)
Theorem UploadFiles_by_headers (t : Tools) (r : Request)
    (File1 File2 : list (string * list FileHeader)) (uploadDir : string)
    (rename : list bool) (w : World) :
  List.concat (map snd File1) = List.concat (map snd File2) ->
  UploadFiles L t (with_File r File1) uploadDir rename w
  = UploadFiles L t (with_File r File2) uploadDir rename w.
Proof.
  intros H. rewrite !UploadFiles_flat. unfold headers, with_File. simpl.
  now rewrite H.
Qed.

(** X6: UploadFiles stops at the first part that fails: the parts after
    it are not looked at, so a form that continues a failing form gives
    the same result, the same struct and the same world. *)
Theorem UploadFiles_stops_at_failure (t : Tools) (r : Request)
    (File1 File2 : list (string * list FileHeader)) (uploadDir : string)
    (rename : list bool) (w : World) (fs : list UploadedFile) (err : error)
    (t' : Tools) (w' : World) :
  UploadFiles L t (with_File r File1) uploadDir rename w
    = (Returns (fs, Some err), t', w') ->
  UploadFiles L t (with_File r (File1 ++ File2)) uploadDir rename w
    = (Returns (fs, Some err), t', w').
Proof.
  rewrite !UploadFiles_flat. unfold headers, with_File. cbv zeta.
  simpl ParseMultipartForm. simpl MultipartForm_File.
  destruct (CreateDirIfNotExist L uploadDir w) as [[e|] w1]; [tauto|].
  destruct (ParseMultipartForm r _); [tauto|].
  rewrite map_app, concat_app, range_headers_app.
  destruct (range_headers L _ uploadDir _ (List.concat (map snd File1)) [] w1)
    as [u2 w2|res w2]; [discriminate | tauto].
Qed.

(** X7: when UploadFiles returns without an error, it returns one record
    for every part, in the order of the parts; each record has the name of
    its part as original name and the number of bytes of its part as
    size, however long the part is; its new name is the name of the part
    when rename is false, and 25 characters of the alphabet followed by
    the extension of the name of the part when rename is true or left
    out. *)
Theorem UploadFiles_records (t : Tools) (r : Request) (uploadDir : string)
    (rename : list bool) (w : World) (fs : list UploadedFile) (t' : Tools)
    (w' : World) :
  UploadFiles L t r uploadDir rename w = (Returns (fs, None), t', w') ->
  Forall2 (recorded (match rename with b :: _ => b | [] => true end))
    fs (headers r).
Proof.
  rewrite UploadFiles_flat. cbv zeta. intros H.
  destruct (CreateDirIfNotExist L uploadDir w) as [[e|] w1]; [discriminate|].
  destruct (ParseMultipartForm r _); [discriminate|].
  destruct (range_headers L _ uploadDir _ (headers r) [] w1)
    as [u2 w2|res w2] eqn:E.
  - injection H as <- <- <-.
    apply range_headers_recorded in E.
    destruct E as (added & -> & Hrec & _). exact Hrec.
  - injection H as -> <- <-.
    apply range_headers_left in E. destruct E as [_ E]. congruence.
Qed.

Lemma lookup_file_app (path : string) (a b : list (string * list byte)) :
  lookup_file path (a ++ b)
  = match lookup_file path a with
    | Some data => Some data
    | None => lookup_file path b
    end.
Proof.
  unfold lookup_file. induction a as [|[k v] a IH]; simpl; [reflexivity|].
  destruct (k =? path)%string; [reflexivity | exact IH].
Qed.

Lemma lookup_file_absent (path : string) (a : list (string * list byte)) :
  ~ In path (map fst a) -> lookup_file path a = None.
Proof.
  unfold lookup_file. induction a as [|[k v] a IH]; simpl; [reflexivity|].
  intros H. destruct (String.eqb_spec k path) as [->|Hne]; [tauto|].
  apply IH. tauto.
Qed.

Lemma written_paths (uploadDir : string) (fs : list UploadedFile) :
  forall (hdrs : list FileHeader) (path : string),
  In path (map fst (written L uploadDir fs hdrs)) ->
  In path (map (path_of L uploadDir) fs).
Proof.
  induction fs as [|f fs IH]; intros [|hdr hdrs] path; simpl; try tauto.
  rewrite map_app, in_app_iff. simpl. intros [H|[H|[H|[]]]]; eauto.
Qed.

(** With distinct paths, every file that was written holds its part. *)
Lemma written_lookup (uploadDir : string) (fs : list UploadedFile) :
  forall (hdrs : list FileHeader) (rest : list (string * list byte)),
  List.length fs = List.length hdrs ->
  NoDup (map (path_of L uploadDir) fs) ->
  Forall2 (fun f hdr =>
             lookup_file (path_of L uploadDir f)
               (written L uploadDir fs hdrs ++ rest)
             = Some (content hdr)) fs hdrs.
Proof.
  induction fs as [|f fs IH]; intros [|hdr hdrs] rest Hlen Hnd;
    try discriminate; [constructor|].
  simpl in *. inversion Hnd as [|? ? Hnotin Hnd']; subst.
  constructor.
  - rewrite <- app_assoc, lookup_file_app, lookup_file_absent.
    + simpl. apply lookup_file_head.
    + intros Hin. apply Hnotin. eapply written_paths. exact Hin.
  - rewrite <- app_assoc. apply IH; [lia | exact Hnd'].
Qed.

Lemma CreateDirIfNotExist_files (uploadDir : string) (w w' : World)
    (err : option error) :
  CreateDirIfNotExist L uploadDir w = (err, w') -> files w' = files w.
Proof.
  unfold CreateDirIfNotExist, MkdirAll. intros H.
  repeat split_match; same; reflexivity.
Qed.

(** X8: the round trip of an upload.  When UploadFiles returns without
    an error and the records name distinct paths, every record names a
    file of the upload directory that holds exactly the bytes of its
    part. *)
Theorem UploadFiles_round_trip (t : Tools) (r : Request) (uploadDir : string)
    (rename : list bool) (w : World) (fs : list UploadedFile) (t' : Tools)
    (w' : World) :
  UploadFiles L t r uploadDir rename w = (Returns (fs, None), t', w') ->
  NoDup (map (path_of L uploadDir) fs) ->
  Forall2 (fun f hdr =>
             lookup_file (path_of L uploadDir f) (files w')
             = Some (content hdr)) fs (headers r).
Proof.
  rewrite UploadFiles_flat. cbv zeta. intros H Hnd.
  destruct (CreateDirIfNotExist L uploadDir w) as [[e|] w1]; [discriminate|].
  destruct (ParseMultipartForm r _); [discriminate|].
  destruct (range_headers L _ uploadDir _ (headers r) [] w1)
    as [u2 w2|res w2] eqn:E.
  - injection H as <- <- <-.
    apply range_headers_recorded in E.
    destruct E as (added & -> & Hrec & ->). simpl in *.
    apply written_lookup; [|exact Hnd].
    eapply Forall2_length. exact Hrec.
  - injection H as -> <- <-.
    apply range_headers_left in E. destruct E as [_ E]. congruence.
Qed.

Lemma range_headers_adds_files (t : Tools) (uploadDir : string)
    (renameFile : bool) (fHeaders : list FileHeader) :
  forall (uploadedFiles : list UploadedFile) (w : World),
  exists added,
    files (match range_headers L t uploadDir renameFile fHeaders
                   uploadedFiles w with
           | Goes_on _ w' => w'
           | Left _ w' => w'
           end)
    = added ++ files w.
Proof.
  induction fHeaders as [|hdr rest IH]; intros u w; simpl.
  - now exists [].
  - destruct (upload_part L t uploadDir renameFile hdr u u w)
      as [[res u1] w1] eqn:E.
    apply upload_part_adds_files in E. destruct E as [a1 Ha1].
    destruct res as [[fs1 [e|]]|reason]; simpl;
      try (exists a1; exact Ha1).
    destruct (IH u1 w1) as [a2 Ha2].
    exists (a2 ++ a1). now rewrite Ha2, Ha1, app_assoc.
Qed.

(** X9: UploadFiles never removes a file: whatever it returns, every
    path that named a file before the call names a file after it. *)
Theorem UploadFiles_never_deletes (t : Tools) (r : Request)
    (uploadDir : string) (rename : list bool) (w : World) (path : string) :
  lookup_file path (files w) <> None ->
  lookup_file path (files (snd (UploadFiles L t r uploadDir rename w)))
  <> None.
Proof.
  intros Hthere. rewrite UploadFiles_flat. cbv zeta.
  destruct (CreateDirIfNotExist L uploadDir w) as [[e|] w1] eqn:Ed;
    apply CreateDirIfNotExist_files in Ed; [simpl; now rewrite Ed|].
  destruct (ParseMultipartForm r _); [simpl; now rewrite Ed|].
  match goal with
  | |- context [range_headers L ?t' uploadDir ?rn (headers r) [] w1] =>
      destruct (range_headers_adds_files t' uploadDir rn (headers r) [] w1)
        as [added Hadded];
      destruct (range_headers L t' uploadDir rn (headers r) [] w1)
  end; simpl in *; rewrite Hadded, lookup_file_app, Ed;
    now destruct (lookup_file path added).
Qed.

(** The handles that a part leaves open: those that were open, and the
    destination if it was created. *)
Lemma upload_part_open_handles (t : Tools) (uploadDir : string)
    (renameFile : bool) (hdr : FileHeader)
    (uploadeFiles uploadedFiles : list UploadedFile) (w : World)
    (res : outcome part_return) (outer : list UploadedFile) (w' : World) :
  upload_part L t uploadDir renameFile hdr uploadeFiles uploadedFiles w
    = (res, outer, w') ->
  open_handles w' = open_handles w \/
  open_handles w'
  = remove Nat.eq_dec (next_handle w) (next_handle w :: open_handles w) \/
  (open_handles w'
   = remove Nat.eq_dec (next_handle w)
       (S (next_handle w) :: next_handle w :: open_handles w) /\
   (copy_fault hdr <> None \/ exists fs, res = Returns (fs, None))).
Proof.
  unfold upload_part, Open, Seek, Create, Copy, acquire. intros H.
  repeat split_match; try discriminate; same; cbn -[remove Nat.eq_dec];
    first [ now left | now (right; left)
          | right; right; split; [reflexivity|];
            first [ left; congruence | right; eexists; reflexivity ] ].
Qed.

Lemma remove_fresh (w : World) :
  fresh w ->
  remove Nat.eq_dec (next_handle w) (open_handles w) = open_handles w.
Proof.
  intros Hw. apply notin_remove. intros Hin. unfold fresh in Hw.
  rewrite Forall_forall in Hw. apply Hw in Hin. lia.
Qed.

(** X10: the stream of a part is closed on every way out of its upload,
    and a part that fails leaves no handle open unless the failure is in
    the copy; the handles that were open stay open. *)
Theorem upload_part_closes_stream (t : Tools) (uploadDir : string)
    (renameFile : bool) (hdr : FileHeader)
    (uploadeFiles uploadedFiles : list UploadedFile) (w : World)
    (res : outcome part_return) (outer : list UploadedFile) (w' : World) :
  fresh w ->
  upload_part L t uploadDir renameFile hdr uploadeFiles uploadedFiles w
    = (res, outer, w') ->
  ~ In (next_handle w) (open_handles w') /\
  (forall h, In h (open_handles w) -> In h (open_handles w')) /\
  (forall fs err, res = Returns (fs, Some err) -> copy_fault hdr = None ->
     open_handles w' = open_handles w).
Proof.
  intros Hw H. pose proof (remove_fresh w Hw) as Hrem.
  assert (~ In (next_handle w) (open_handles w)) as Hnew.
  { intros Hin. unfold fresh in Hw. rewrite Forall_forall in Hw.
    apply Hw in Hin. lia. }
  apply upload_part_open_handles in H.
  assert (remove Nat.eq_dec (next_handle w)
            (S (next_handle w) :: next_handle w :: open_handles w)
          = S (next_handle w) :: open_handles w) as Hdest.
  { simpl. destruct (Nat.eq_dec (next_handle w) (S (next_handle w)));
      [lia|].
    destruct (Nat.eq_dec (next_handle w) (next_handle w)); [|congruence].
    now rewrite Hrem. }
  unfold handle in *. rewrite remove_cons, Hrem, Hdest in H.
  destruct H as [->|[->|[-> Hwhy]]].
  - split; [exact Hnew | split; [tauto | reflexivity]].
  - split; [exact Hnew | split; [tauto | reflexivity]].
  - split; [|split].
    + simpl. intros [Heq|Hin]; [lia | contradiction].
    + intros h Hh. now right.
    + intros fs err -> Hcopy. destruct Hwhy as [Hc|[fs' Hc]];
        [contradiction | discriminate].
Qed.

Lemma fold_allowed (f : string -> bool) (l : list string) : forall a,
  fold_left (fun allowed x => if f x then true else allowed) l a
  = a || existsb f l.
Proof.
  induction l as [|x l IH]; intros a; simpl.
  - now rewrite orb_false_r.
  - rewrite IH. destruct (f x), a; reflexivity.
Qed.

(** X11: a part that opens and reads, is not empty and is sniffed as a
    type that the allow-list does not admit is rejected with "the
    uploaded file type is not permitted"; nothing is recorded for it, no
    file is created, no random name is drawn and no handle stays open.
    An empty allow-list admits every type. *)
Theorem upload_part_rejects (t : Tools) (uploadDir : string)
    (renameFile : bool) (hdr : FileHeader)
    (uploadeFiles uploadedFiles : list UploadedFile) (w : World) :
  fresh w ->
  open_fault hdr = None -> read_fault hdr = None -> content hdr <> [] ->
  admits L t (DetectContentType L (sniffed hdr)) = false ->
  AllowedFileTypes t <> [] /\
  exists w',
    upload_part L t uploadDir renameFile hdr uploadeFiles uploadedFiles w
    = (Returns
         ([], Some (errors_New "the uploaded file type is not permitted")),
       uploadedFiles, w') /\
    files w' = files w /\ drawn w' = drawn w /\
    open_handles w' = open_handles w.
Proof.
  intros Hw Hopen Hread Hne Hadm.
  unfold admits in Hadm.
  destruct (AllowedFileTypes t) as [|ty types] eqn:Et; [discriminate|].
  split; [discriminate|].
  destruct (sniffed_padded hdr Hread Hne) as [_ Hrd].
  unfold upload_part, Open. rewrite Hopen. unfold acquire. rewrite Hrd.
  rewrite Et. cbn [List.length Nat.ltb Nat.leb].
  rewrite fold_allowed, Hadm. cbn [orb negb].
  eexists. split; [reflexivity|].
  cbn -[remove Nat.eq_dec]. pose proof (remove_fresh w Hw) as Hrem.
  unfold handle in *. rewrite remove_cons, Hrem.
  repeat split.
Qed.

(** X12: UploadOneFile uploads every part of the form as UploadFiles
    does, with the same struct and the same world after the call, and
    returns the first record; an error of UploadFiles is returned with a
    nil record. *)
Theorem UploadOneFile_first (t : Tools) (r : Request) (uploadDir : string)
    (rename : list bool) (w : World) (fs : list UploadedFile)
    (err : option error) (t' : Tools) (w' : World) :
  UploadFiles L t r uploadDir rename w = (Returns (fs, err), t', w') ->
  (err <> None \/ fs <> []) ->
  UploadOneFile L t r uploadDir rename w
  = (Returns (match err with Some _ => None | None => hd_error fs end, err),
     t', w').
Proof.
  intros H Hsome. unfold UploadOneFile. cbv zeta.
  assert (UploadFiles L t r uploadDir
            [match rename with b :: _ => b | [] => true end] w
          = UploadFiles L t r uploadDir rename w) as ->
    by (rewrite !UploadFiles_flat; reflexivity).
  rewrite H. destruct err as [e|]; [reflexivity|].
  destruct fs as [|f fs]; [|reflexivity].
  destruct Hsome; congruence.
Qed.

Lemma dirs_there (path : string) (ds : list string) :
  existsb (fun d => (d =? path)%string) ds = true <-> In path ds.
Proof.
  rewrite existsb_exists. split.
  - intros (d & Hin & Heq). apply String.eqb_eq in Heq. now subst.
  - intros Hin. exists path. split; [exact Hin | apply String.eqb_refl].
Qed.

(** X13: CreateDirIfNotExist is idempotent, and calls os.MkdirAll only
    when os.Stat says that the path does not exist.  After a call that
    returns no error, a second call returns no error and changes nothing.
    When the path names a directory or a regular file, or os.Stat fails
    for another reason, the call returns no error and changes nothing.
    When the path named nothing and the call returns no error, the path
    and its parents are directories afterwards.  An error is the error of
    os.MkdirAll on a path that named nothing.  In every case no file is
    touched and no directory is removed. *)
Theorem CreateDirIfNotExist_idempotent (path : string) (w w' : World)
    (err : option error) :
  CreateDirIfNotExist L path w = (err, w') ->
  files w' = files w /\
  (forall d, In d (dirs w) -> In d (dirs w')) /\
  (Stat_IsNotExist L path w = false -> err = None /\ w' = w) /\
  match err with
  | None =>
      CreateDirIfNotExist L path w' = (None, w') /\
      (Stat_IsNotExist L path w = true ->
       In path (dirs w') /\ forall d, In d (parents path) -> In d (dirs w'))
  | Some e =>
      Stat_IsNotExist L path w = true /\
      exists made, MkdirAll_fault L path = Some (made, e) /\
                   dirs w' = made ++ dirs w
  end.
Proof.
  unfold CreateDirIfNotExist, MkdirAll. intros H.
  destruct (Stat_IsNotExist L path w) eqn:E.
  - destruct (MkdirAll_fault L path) as [[made e]|] eqn:Em.
    + injection H as <- <-. simpl.
      split; [reflexivity|]. split; [intros d Hd; apply in_or_app; now right|].
      split; [discriminate|]. split; [reflexivity|].
      exists made. split; reflexivity.
    + injection H as <- <-. simpl.
      split; [reflexivity|].
      split; [intros d Hd; right; apply in_or_app; now right|].
      split; [discriminate|]. split.
      * unfold Stat_IsNotExist in *.
        destruct (Stat_fault L path); [reflexivity|].
        unfold path_exists. simpl. now rewrite String.eqb_refl.
      * intros _. split; [now left|].
        intros d Hd. right. apply in_or_app. now left.
  - injection H as <- <-.
    split; [reflexivity|]. split; [tauto|]. split; [tauto|].
    rewrite E. split; [reflexivity | discriminate].
Qed.

(** The test of the allow-list, as the code computes it. *)
Lemma allowed_admits (t : Tools) (fileType : string) :
  (if (0 <? List.length (AllowedFileTypes t))%nat
   then fold_left
          (fun allowed x => if EqualFold L fileType x then true else allowed)
          (AllowedFileTypes t) false
   else true)
  = admits L t fileType.
Proof.
  unfold admits. destruct (AllowedFileTypes t) as [|ty types] eqn:E;
    [reflexivity|].
  cbn [List.length Nat.ltb Nat.leb]. now rewrite fold_allowed.
Qed.

Lemma RandomString_no_panic (draw : Random.entropy) (k : nat) (n : Z)
    (reason : string) :
  0 <= n -> Random.RandomString draw k n <> Panics reason.
Proof.
  unfold Random.RandomString. intros Hn.
  destruct (Z.ltb_spec n 0) as [Hneg|Hpos]; [lia | discriminate].
Qed.

(** The upload of a part does not panic. *)
Lemma upload_part_no_panic (t : Tools) (uploadDir : string)
    (renameFile : bool) (hdr : FileHeader)
    (uploadeFiles uploadedFiles : list UploadedFile) (w : World)
    (reason : string) (outer : list UploadedFile) (w' : World) :
  upload_part L t uploadDir renameFile hdr uploadeFiles uploadedFiles w
  <> (Panics reason, outer, w').
Proof.
  unfold upload_part, Open, Seek, Create, Copy, acquire. intros H.
  repeat split_match; try discriminate.
  all: match goal with
       | E : Random.RandomString _ _ 25 = Panics _ |- _ =>
           now apply RandomString_no_panic in E
       end.
Qed.

(** Why a part that opens and reads and is not empty fails: its type is
    not admitted, or the seek, the creation of the destination or the
    copy fails. *)
Lemma upload_part_error_cause (t : Tools) (uploadDir : string)
    (renameFile : bool) (hdr : FileHeader)
    (uploadeFiles uploadedFiles : list UploadedFile) (w : World)
    (fs outer : list UploadedFile) (e : error) (w' : World) :
  open_fault hdr = None -> read_fault hdr = None -> content hdr <> [] ->
  upload_part L t uploadDir renameFile hdr uploadeFiles uploadedFiles w
    = (Returns (fs, Some e), outer, w') ->
  (admits L t (DetectContentType L (sniffed hdr)) = false /\
   e = errors_New "the uploaded file type is not permitted") \/
  (admits L t (DetectContentType L (sniffed hdr)) = true /\
   (seek_fault hdr = Some e \/
    (exists path, Create_fault L path = Some e) \/
    (exists k, copy_fault hdr = Some (k, e)))).
Proof.
  intros Hopen Hread Hne.
  destruct (sniffed_padded hdr Hread Hne) as [_ Hrd].
  unfold upload_part, Open. rewrite Hopen. unfold acquire. rewrite Hrd.
  cbv zeta. rewrite allowed_admits.
  destruct (admits L t (DetectContentType L (sniffed hdr))); simpl negb;
    cbv iota.
  - unfold Seek, Create, Copy, acquire. intros H. right.
    split; [reflexivity|].
    repeat split_match; try discriminate; same;
      first [ left; assumption
            | left; reflexivity
            | right; left; eexists; eassumption
            | right; left; eexists; reflexivity
            | right; right; eexists; eassumption
            | right; right; eexists; reflexivity ].
  - intros [= <- <- <- <-]. left. split; reflexivity.
Qed.

(** C5, as amended: a part that opens and reads without a fault and is
    not empty passes the read, and the sniffer is run on a buffer of
    exactly 512 bytes, the first min(512, partLength) bytes of the part
    followed by zero bytes, and on nothing else: a sniffer that agrees
    with http.DetectContentType on that buffer gives the same run.  What
    the sniffer says of that buffer decides the part: a type that the
    allow-list does not admit is rejected, and a type that it admits is
    uploaded, unless the seek, the creation of the destination or the
    copy fails; the part does not fail for being short.  An empty part
    fails with io.EOF before the allow-list is looked at. *)
Theorem upload_part_sniffs_padded_buffer (t : Tools) (uploadDir : string)
    (renameFile : bool) (hdr : FileHeader)
    (uploadeFiles uploadedFiles : list UploadedFile) (w : World) :
  open_fault hdr = None -> read_fault hdr = None ->
  (content hdr <> [] ->
   sniffed hdr
   = firstn 512 (content hdr)
       ++ repeat x00 (512 - Nat.min 512 (List.length (content hdr))) /\
   List.length (sniffed hdr) = 512%nat /\
   (forall D : list byte -> string,
      D (sniffed hdr) = DetectContentType L (sniffed hdr) ->
      upload_part (with_sniffer L D) t uploadDir renameFile hdr uploadeFiles
        uploadedFiles w
      = upload_part L t uploadDir renameFile hdr uploadeFiles
          uploadedFiles w) /\
   (admits L t (DetectContentType L (sniffed hdr)) = false ->
    fst (fst (upload_part L t uploadDir renameFile hdr uploadeFiles
                uploadedFiles w))
    = Returns
        ([], Some (errors_New "the uploaded file type is not permitted"))) /\
   (admits L t (DetectContentType L (sniffed hdr)) = true ->
    seek_fault hdr = None -> copy_fault hdr = None ->
    (forall path, Create_fault L path = None) ->
    exists f,
      fst (upload_part L t uploadDir renameFile hdr uploadeFiles
             uploadedFiles w)
      = (Returns (uploadeFiles, None), uploadedFiles ++ [f]) /\
      OriginalFileName f = Filename hdr /\
      FileSize f = Z.of_nat (List.length (content hdr))) /\
   (forall fs e,
      fst (fst (upload_part L t uploadDir renameFile hdr uploadeFiles
                  uploadedFiles w))
      = Returns (fs, Some e) ->
      (admits L t (DetectContentType L (sniffed hdr)) = false /\
       e = errors_New "the uploaded file type is not permitted") \/
      (admits L t (DetectContentType L (sniffed hdr)) = true /\
       (seek_fault hdr = Some e \/
        (exists path, Create_fault L path = Some e) \/
        (exists k, copy_fault hdr = Some (k, e)))))) /\
  (content hdr = [] ->
   fst (fst (upload_part L t uploadDir renameFile hdr uploadeFiles
               uploadedFiles w))
   = Returns ([], Some io_EOF)).
Proof.
  intros Hopen Hread. split.
  - intros Hne. destruct (sniffed_padded hdr Hread Hne) as [Hbuf Hrd].
    assert (forall fs e,
              fst (fst (upload_part L t uploadDir renameFile hdr uploadeFiles
                          uploadedFiles w))
              = Returns (fs, Some e) ->
              (admits L t (DetectContentType L (sniffed hdr)) = false /\
               e = errors_New "the uploaded file type is not permitted") \/
              (admits L t (DetectContentType L (sniffed hdr)) = true /\
               (seek_fault hdr = Some e \/
                (exists path, Create_fault L path = Some e) \/
                (exists k, copy_fault hdr = Some (k, e))))) as Hcause.
    { intros fs e H.
      destruct (upload_part L t uploadDir renameFile hdr uploadeFiles
                  uploadedFiles w) as [[res outer] w'] eqn:E.
      simpl in H. rewrite H in E.
      exact (upload_part_error_cause _ _ _ _ _ _ _ _ _ _ _
               Hopen Hread Hne E). }
    split; [exact Hbuf|]. split; [|split; [|split; [|split]]].
    + rewrite Hbuf, length_app, repeat_length, length_firstn. lia.
    + intros D HD. unfold upload_part, Open. rewrite Hopen.
      destruct (acquire w) as [h w1]. rewrite Hrd.
      cbn [DetectContentType EqualFold filepath_Join draw with_sniffer].
      rewrite HD. reflexivity.
    + intros Hadm. unfold upload_part, Open. rewrite Hopen.
      unfold acquire. rewrite Hrd. cbv zeta.
      rewrite allowed_admits, Hadm. reflexivity.
    + intros Hadm Hseek Hcopy Hcreate.
      destruct (upload_part L t uploadDir renameFile hdr uploadeFiles
                  uploadedFiles w) as [[res outer] w'] eqn:E.
      destruct res as [[fs [e|]]|reason].
      * exfalso.
        destruct (upload_part_error_cause _ _ _ _ _ _ _ _ _ _ _
                    Hopen Hread Hne E)
          as [[Hno _]|[_ [Hs|[[path Hp]|[k Hk]]]]];
          [congruence | congruence
          | rewrite Hcreate in Hp; discriminate | congruence].
      * pose proof (upload_part_returns L _ _ _ _ _ _ _ _ _ _ _ E)
          as [-> _].
        apply upload_part_stores in E.
        destruct E as (name & -> & _).
        eexists. split; [reflexivity|]. split; reflexivity.
      * exfalso. exact (upload_part_no_panic _ _ _ _ _ _ _ _ _ _ E).
    + exact Hcause.
  - intros Hempty. unfold upload_part, Open. rewrite Hopen.
    destruct (acquire w) as [h w1].
    unfold Read. rewrite Hread, Hempty. reflexivity.
Qed.

End UploadStoreFacts.

(** ** ReadJSON: when it succeeds and what it reports *)

Section JsonMoreFacts.

Import Json.

Variable Quote : string -> string.
Variable Body : Type.
Variable json_Decode : Z -> bool -> Body -> nat -> option error.

(** X14: ReadJSON returns nil exactly when the first Decode returns no
    error and the second returns io.EOF. *)
Theorem ReadJSON_succeeds_iff (t : Tools) (body : Body) :
  ReadJSON Quote Body json_Decode t body = None <->
  json_Decode (limit t) (negb (AllowUnkownFields t)) body 0%nat = None /\
  json_Decode (limit t) (negb (AllowUnkownFields t)) body 1%nat
  = Some io_EOF.
Proof.
  rewrite ReadJSON_unfold.
  destruct (json_Decode (limit t) _ body 0%nat) as [e|].
  - split; [discriminate | intros [H _]; discriminate].
  - destruct (json_Decode (limit t) _ body 1%nat) as [[]|];
      split; try discriminate; try (intros [_ H]; discriminate); auto.
Qed.

(** X15: when the decoder fails with the error of http.MaxBytesReader,
    ReadJSON reports "body must not be larger than N bytes" where N is
    MaxJSONSize, or 1048576 when MaxJSONSize is zero. *)
Theorem ReadJSON_too_large (t : Tools) (body : Body) :
  json_Decode (limit t) (negb (AllowUnkownFields t)) body 0%nat
    = Some http_body_too_large ->
  ReadJSON Quote Body json_Decode t body
    = Some (errorString
              ("body must not be larger than " ++ fmt_d (limit t)
               ++ " bytes")) /\
  (MaxJSONSize t = 0 ->
   ReadJSON Quote Body json_Decode t body
     = Some (errorString "body must not be larger than 1048576 bytes")) /\
  (MaxJSONSize t <> 0 -> limit t = MaxJSONSize t).
Proof.
  intros H. rewrite ReadJSON_unfold, H. split; [reflexivity|]. split.
  - intros H0. unfold limit. rewrite H0. reflexivity.
  - intros Hne. unfold limit.
    destruct (Z.eqb_spec (MaxJSONSize t) 0); [contradiction | reflexivity].
Qed.

(** X16: the messages of ReadJSON for the errors of the decoder that the
    switch recognises: a syntax error is reported with its offset, an
    unexpected end of input and an empty body each with a fixed message,
    and a type mismatch with the quoted field, or with the offset when
    the field is not known. *)
Theorem ReadJSON_messages (t : Tools) (body : Body) (err : error) :
  json_Decode (limit t) (negb (AllowUnkownFields t)) body 0%nat = Some err ->
  exists msg,
    ReadJSON Quote Body json_Decode t body = Some msg /\
    match err with
    | json_SyntaxError _ Offset =>
        msg = errorString ("body contains badly-formed JSON (at character "
                           ++ fmt_d Offset ++ ")")
    | io_ErrUnexpectedEOF =>
        msg = errorString "body contains badly-formed JSON"
    | io_EOF => msg = errorString "body must not be empty"
    | json_UnmarshalTypeError _ Field Offset =>
        msg = if (Field =? "")%string
              then errorString ("body contains incorrect JSON type (at: "
                                ++ fmt_d Offset ++ ")")
              else errorString
                     ("body contains incorrect JSON type for field "
                      ++ Quote Field)
    | _ => True
    end.
Proof.
  intros H. rewrite ReadJSON_unfold, H. eexists. split; [reflexivity|].
  destruct err as [m| | |m off|m fld off|m|m]; try exact I;
    try reflexivity.
  unfold rewrite_error. simpl. now destruct (fld =? "")%string.
Qed.

End JsonMoreFacts.

Lemma ReadJSON_too_large_witness :
  Json.scripted_Decode (Json.limit (mkTools 0 [] 0 true))
    (negb (AllowUnkownFields (mkTools 0 [] 0 true)))
    (Json.mkScript [] [Some Json.http_body_too_large]) 0%nat
  = Some Json.http_body_too_large /\
  Json.ReadJSON Json.Quote_plain Json.script Json.scripted_Decode
    (mkTools 0 [] 0 true) (Json.mkScript [] [Some Json.http_body_too_large])
  = Some (errorString "body must not be larger than 1048576 bytes").
Proof.
  split; [reflexivity|].
  apply (ReadJSON_too_large Json.Quote_plain Json.script Json.scripted_Decode
           (mkTools 0 [] 0 true)
           (Json.mkScript [] [Some Json.http_body_too_large]));
    reflexivity.
Defined.

Lemma ReadJSON_messages_witness :
  Json.scripted_Decode (Json.limit Json.strict_tools)
    (negb (AllowUnkownFields Json.strict_tools))
    (Json.mkScript [Some (json_SyntaxError "invalid character" 8)] []) 0%nat
  = Some (json_SyntaxError "invalid character" 8) /\
  exists msg,
    Json.ReadJSON Json.Quote_plain Json.script Json.scripted_Decode
      Json.strict_tools
      (Json.mkScript [Some (json_SyntaxError "invalid character" 8)] [])
    = Some msg /\
    msg = errorString "body contains badly-formed JSON (at character 8)".
Proof.
  split; [reflexivity|].
  apply (ReadJSON_messages Json.Quote_plain Json.script Json.scripted_Decode
           Json.strict_tools
           (Json.mkScript [Some (json_SyntaxError "invalid character" 8)] [])
           (json_SyntaxError "invalid character" 8)).
  reflexivity.
Defined.

(** ** WriteJSON, ErrorJSON and PushJSONToRemote *)

Section HeaderFacts.

Import Http.

Lemma lookup_store (h : Header) (key k : string) (v : list string) :
  lookup (store h key v) k
  = if (key =? k)%string then Some v else lookup h k.
Proof. unfold lookup, store. simpl. now destruct (key =? k)%string. Qed.

Lemma lookup_filter_other (h : Header) (k0 k : string) :
  k0 <> k ->
  lookup (filter (fun e => negb (fst e =? k0)%string) h) k = lookup h k.
Proof.
  intros Hne. unfold lookup.
  induction h as [|[a v] h IH]; simpl; [reflexivity|].
  destruct (String.eqb_spec a k0) as [->|Ha]; simpl.
  - destruct (String.eqb_spec k0 k); [contradiction | exact IH].
  - destruct (a =? k)%string; [reflexivity | exact IH].
Qed.

(** [range h] visits the current value of every key. *)
Lemma lookup_entries (h : Header) (k : string) :
  lookup (entries h) k = lookup h k.
Proof.
  induction h as [|[a v] h IH]; [reflexivity|].
  pose proof (lookup_filter_other (entries h) a k) as Hf.
  simpl entries. unfold lookup in Hf, IH |- *. simpl find.
  destruct (String.eqb_spec a k) as [->|Hne]; [reflexivity|].
  rewrite (Hf Hne). exact IH.
Qed.

Lemma keys_filter (h : Header) (k0 k : string) :
  In k (map fst (filter (fun e => negb (fst e =? k0)%string) h)) ->
  k <> k0 /\ In k (map fst h).
Proof.
  induction h as [|[a v] h IH]; simpl; [tauto|].
  destruct (String.eqb_spec a k0) as [->|Ha]; simpl.
  - intros H. destruct (IH H). tauto.
  - intros [<-|H]; [tauto|]. destruct (IH H). tauto.
Qed.

Lemma NoDup_keys_filter (h : Header) (k0 : string) :
  NoDup (map fst h) ->
  NoDup (map fst (filter (fun e => negb (fst e =? k0)%string) h)).
Proof.
  induction h as [|[a v] h IH]; simpl; [constructor|].
  intros Hnd. inversion Hnd as [|? ? Hnotin Hnd']; subst.
  destruct (a =? k0)%string; simpl; [now apply IH|].
  constructor; [|now apply IH].
  intros Hin. apply keys_filter in Hin. tauto.
Qed.

(** [range h] visits every key once. *)
Lemma NoDup_entries (h : Header) : NoDup (map fst (entries h)).
Proof.
  induction h as [|[a v] h IH]; simpl; [constructor|].
  constructor; [|now apply NoDup_keys_filter].
  intros Hin. apply keys_filter in Hin. tauto.
Qed.

Lemma lookup_app (a b : Header) (k : string) :
  lookup (a ++ b) k
  = match lookup a k with
    | Some v => Some v
    | None => lookup b k
    end.
Proof.
  unfold lookup. induction a as [|[x v] a IH]; simpl; [reflexivity|].
  destruct (x =? k)%string; [reflexivity | exact IH].
Qed.

(** The loop that copies the entries of a header into the header of the
    writer: the last value stored for a key is its value. *)
Lemma copy_loop_lookup (l : Header) (k : string) : forall w,
  lookup
    (header (fold_left
               (fun w e => set_header w (store (header w) (fst e) (snd e)))
               l w)) k
  = match lookup (rev l) k with
    | Some v => Some v
    | None => lookup (header w) k
    end.
Proof.
  induction l as [|[a v] l IH]; intros w; [reflexivity|].
  simpl fold_left. rewrite IH. simpl header. rewrite lookup_store.
  simpl rev. rewrite lookup_app.
  destruct (lookup (rev l) k); [reflexivity|].
  unfold lookup. simpl. now destruct (a =? k)%string.
Qed.

Lemma lookup_In (h : Header) (k : string) (v : list string) :
  NoDup (map fst h) -> (lookup h k = Some v <-> In (k, v) h).
Proof.
  unfold lookup. induction h as [|[a x] h IH]; simpl.
  - intros _. split; [discriminate | tauto].
  - intros Hnd. inversion Hnd as [|? ? Hnotin Hnd']; subst.
    destruct (String.eqb_spec a k) as [->|Hne].
    + split.
      * intros [= ->]. now left.
      * intros [[= ->]|Hin]; [reflexivity|].
        exfalso. apply Hnotin. now apply (in_map fst) in Hin.
    + rewrite (IH Hnd'). split; [tauto|].
      intros [[= -> ->]|Hin]; [congruence | exact Hin].
Qed.

Lemma lookup_rev (h : Header) (k : string) :
  NoDup (map fst h) -> lookup (rev h) k = lookup h k.
Proof.
  intros Hnd.
  assert (NoDup (map fst (rev h))) as Hnd'
    by (rewrite map_rev; now apply NoDup_rev).
  destruct (lookup h k) as [v|] eqn:E.
  - apply (lookup_In _ _ _ Hnd'). rewrite <- In_rev.
    now apply (lookup_In _ _ _ Hnd).
  - destruct (lookup (rev h) k) as [v|] eqn:E'; [|reflexivity].
    apply (lookup_In _ _ _ Hnd') in E'. rewrite <- In_rev in E'.
    apply (lookup_In _ _ _ Hnd) in E'. congruence.
Qed.

(** The headers of the caller override those of the writer, key by
    key. *)
Lemma copy_headers_lookup (h0 : Header) (w : ResponseWriter) (k : string) :
  lookup
    (header (fold_left
               (fun w e => set_header w (store (header w) (fst e) (snd e)))
               (entries h0) w)) k
  = match lookup h0 k with
    | Some v => Some v
    | None => lookup (header w) k
    end.
Proof.
  rewrite copy_loop_lookup, lookup_rev by apply NoDup_entries.
  now rewrite lookup_entries.
Qed.

(** The writer after the loop differs from the writer before it in its
    header only. *)
Lemma copy_headers_rest (l : Header) : forall w,
  let w' := fold_left
              (fun w e => set_header w (store (header w) (fst e) (snd e)))
              l w in
  status w' = status w /\ sent w' = sent w /\ body w' = body w /\
  write_fault w' = write_fault w.
Proof.
  induction l as [|e l IH]; intros w; simpl; [tauto|].
  destruct (IH (set_header w (store (header w) (fst e) (snd e))))
    as (H1 & H2 & H3 & H4).
  simpl in H1, H2, H3, H4. now rewrite H1, H2, H3, H4.
Qed.

End HeaderFacts.

Section HttpFacts.

Import Http.

Variable value : Type.
Variable json_Marshal : value -> list byte + error.
Variable boxed : JSONResponse value -> value.
Variable default_Client : Client.
Variable NewRequest_fault : string -> string -> option error.

(** What [WriteJSON] sends when the value marshals, no status line went
    out before and the connection has no fault. *)
Lemma WriteJSON_success (w : ResponseWriter) (st : Z) (data : value)
    (headers : list Header) (out : list byte) :
  json_Marshal data = inl out ->
  status w = None -> write_fault w = None ->
  exists w',
    WriteJSON value json_Marshal w st data headers = (None, w') /\
    status w' = Some st /\
    body w' = body w ++ out /\
    sent w' = header w' /\
    lookup (sent w') "Content-Type" = Some ["application/json"%string] /\
    forall k, k <> "Content-Type"%string ->
      lookup (sent w') k
      = match headers with
        | h0 :: _ =>
            match lookup h0 k with
            | Some v => Some v
            | None => lookup (header w) k
            end
        | [] => lookup (header w) k
        end.
Proof.
  intros Hm Hs Hf. unfold WriteJSON. rewrite Hm. cbv zeta.
  set (w1 := match headers with
             | h0 :: _ =>
                 fold_left
                   (fun w e =>
                      set_header w (store (header w) (fst e) (snd e)))
                   (entries h0) w
             | [] => w
             end).
  assert (status w1 = None /\ body w1 = body w /\ write_fault w1 = None)
    as (Hs1 & Hb1 & Hf1).
  { unfold w1. destruct headers as [|h0 more]; [tauto|].
    destruct (copy_headers_rest (entries h0) w) as (H1 & _ & H3 & H4).
    simpl in H1, H3, H4. now rewrite H1, H3, H4. }
  assert (forall k, lookup (header w1) k
                    = match headers with
                      | h0 :: _ =>
                          match lookup h0 k with
                          | Some v => Some v
                          | None => lookup (header w) k
                          end
                      | [] => lookup (header w) k
                      end) as Hh1.
  { intros k. unfold w1. destruct headers as [|h0 more]; [reflexivity|].
    apply copy_headers_lookup. }
  unfold WriteHeader, Write, set_header, Header_Set. simpl. rewrite Hs1.
  simpl. rewrite Hf1. simpl.
  eexists. split; [reflexivity|]. simpl.
  split; [reflexivity|]. split; [now rewrite Hb1|].
  split; [reflexivity|]. split; [reflexivity|].
  intros k Hk. rewrite lookup_store.
  destruct (String.eqb_spec "Content-Type" k); [congruence | apply Hh1].
Qed.

(** X17: when the value marshals, no status line went out before and
    the connection has no fault, WriteJSON sends the given status with the
    header Content-Type set to application/json, whatever Content-Type
    the caller passed, with every other header of the caller in place of
    the writer's for the same key and the writer's other headers as they
    were, and appends the marshalled bytes to the body. *)
Theorem WriteJSON_sends (w : ResponseWriter) (st : Z) (data : value)
    (headers : list Header) (out : list byte) :
  json_Marshal data = inl out ->
  status w = None -> write_fault w = None ->
  exists w',
    WriteJSON value json_Marshal w st data headers = (None, w') /\
    status w' = Some st /\
    body w' = body w ++ out /\
    Header_Get (sent w') "Content-Type" = "application/json"%string /\
    forall k, k <> "Content-Type"%string ->
      lookup (sent w') k
      = match headers with
        | h0 :: _ =>
            match lookup h0 k with
            | Some v => Some v
            | None => lookup (header w) k
            end
        | [] => lookup (header w) k
        end.
Proof.
  intros Hm Hs Hf.
  destruct (WriteJSON_success w st data headers out Hm Hs Hf)
    as (w' & Hw & Hst & Hb & _ & Hct & Hrest).
  exists w'. repeat split; try assumption.
  unfold Header_Get. now rewrite Hct.
Qed.


(** X19: once a status line went out on a writer, WriteJSON changes
    neither the status nor the headers that were sent. *)
Theorem WriteJSON_keeps_sent_status (w : ResponseWriter) (st s0 : Z)
    (data : value) (headers : list Header) :
  status w = Some s0 ->
  status (snd (WriteJSON value json_Marshal w st data headers)) = Some s0 /\
  sent (snd (WriteJSON value json_Marshal w st data headers)) = sent w.
Proof.
  intros Hs. unfold WriteJSON. destruct (json_Marshal data) as [out|e];
    [|simpl; tauto].
  cbv zeta.
  set (w1 := match headers with
             | h0 :: _ =>
                 fold_left
                   (fun w e =>
                      set_header w (store (header w) (fst e) (snd e)))
                   (entries h0) w
             | [] => w
             end).
  assert (status w1 = Some s0 /\ sent w1 = sent w) as (Hs1 & Hsent1).
  { unfold w1. destruct headers as [|h0 more]; [tauto|].
    destruct (copy_headers_rest (entries h0) w) as (H1 & H2 & _).
    simpl in H1, H2. now rewrite H1, H2. }
  unfold Write, WriteHeader, set_header. simpl. rewrite Hs1. simpl.
  rewrite ?Hs1. destruct (write_fault w1); simpl; rewrite ?Hs1; tauto.
Qed.

(** X20: ErrorJSON sends the envelope with error true, the message of
    the error and no data, as JSON, with status 400, or with the first
    status given; the headers of the writer other than Content-Type stay
    as they were. *)
Theorem ErrorJSON_sends (w : ResponseWriter) (err : error) (sts : list Z)
    (out : list byte) :
  json_Marshal (boxed (mkJSONResponse value true (Error err) None))
    = inl out ->
  status w = None -> write_fault w = None ->
  exists w',
    ErrorJSON value json_Marshal boxed w err sts = (None, w') /\
    status w' = Some (match sts with s0 :: _ => s0 | [] => 400 end) /\
    body w' = body w ++ out /\
    Header_Get (sent w') "Content-Type" = "application/json"%string /\
    forall k, k <> "Content-Type"%string ->
      lookup (sent w') k = lookup (header w) k.
Proof.
  intros Hm Hs Hf. unfold ErrorJSON. cbv zeta.
  destruct (WriteJSON_success w (match sts with s0 :: _ => s0 | [] => 400 end)
              _ [] out Hm Hs Hf)
    as (w' & Hw & Hst & Hb & _ & Hct & Hrest).
  exists w'. repeat split; try assumption.
  unfold Header_Get. now rewrite Hct.
Qed.

(** X21: a response that PushJSONToRemote returns has its body closed
    already, and the status code returned is the one of the response;
    with an error, the response is nil and the status code is 0. *)
Theorem PushJSONToRemote_returns (url : string) (data : value)
    (client : list Client) (out out' : list Request)
    (resp : option Response) (code : Z) (err : option error) :
  PushJSONToRemote value json_Marshal default_Client NewRequest_fault
    url data client out = ((resp, code, err), out') ->
  match err with
  | Some _ => resp = None /\ code = 0
  | None =>
      exists r, resp = Some r /\ code = StatusCode r /\
                Body_closed r = true
  end.
Proof.
  unfold PushJSONToRemote, NewRequest. intros H.
  destruct (json_Marshal data) as [jsonData|e].
  - cbv zeta in H. destruct (NewRequest_fault "POST" url) as [e|].
    + injection H as <- <- <- <-. tauto.
    + match type of H with
      | context [match ?c ?req with _ => _ end] =>
          destruct (c req) as [response|e]
      end.
      * injection H as <- <- <- <-. eexists. repeat split.
      * injection H as <- <- <- <-. tauto.
  - injection H as <- <- <- <-. tauto.
Qed.

(** X22: PushJSONToRemote sends at most one request: a POST to the URL
    with Content-Type application/json and the marshalled value as body.
    It sends none exactly when the value does not marshal or the request
    cannot be built. *)
Theorem PushJSONToRemote_requests (url : string) (data : value)
    (client : list Client) (out out' : list Request)
    (res : option Response * Z * option error) :
  PushJSONToRemote value json_Marshal default_Client NewRequest_fault
    url data client out = (res, out') ->
  (out' = out /\
   ((exists err, json_Marshal data = inr err) \/
    NewRequest_fault "POST"%string url <> None)) \/
  (exists jsonData,
     json_Marshal data = inl jsonData /\
     NewRequest_fault "POST"%string url = None /\
     out' = out ++ [mkRequest "POST" url
                      [("Content-Type"%string, ["application/json"%string])]
                      jsonData]).
Proof.
  unfold PushJSONToRemote, NewRequest. intros H.
  destruct (json_Marshal data) as [jsonData|e].
  - cbv zeta in H. destruct (NewRequest_fault "POST" url) as [e|].
    + injection H as <- <-. left. split; [reflexivity|]. right. discriminate.
    + right. exists jsonData. split; [reflexivity|]. split; [reflexivity|].
      match type of H with
      | context [match ?c ?req with _ => _ end] =>
          destruct (c req) as [response|e]
      end; injection H as <- <-; reflexivity.
  - injection H as <- <-. left. split; [reflexivity|]. left. now exists e.
Qed.

End HttpFacts.

(** ** Runs of the further properties *)

Section MoreRuns.

Import Upload Shape.

Lemma UploadFiles_by_headers_witness :
  List.concat (map snd [("a"%string, [png_part]); ("b"%string, [text_part])])
  = List.concat (map snd [("c"%string, [png_part; text_part])]) /\
  UploadFiles fair any_type
    (with_File no_file
       [("a"%string, [png_part]); ("b"%string, [text_part])])
    "up" [false] empty_world
  = UploadFiles fair any_type
      (with_File no_file [("c"%string, [png_part; text_part])])
      "up" [false] empty_world.
Proof.
  split; [reflexivity|].
  apply (UploadFiles_by_headers fair any_type no_file
           [("a"%string, [png_part]); ("b"%string, [text_part])]
           [("c"%string, [png_part; text_part])] "up" [false] empty_world).
  reflexivity.
Defined.

Lemma UploadFiles_stops_at_failure_witness :
  exists (t' : Tools) (w' : World),
    UploadFiles fair only_png
      (with_File no_file [("file"%string, [text_part])]) "up" [false]
      empty_world
    = (Returns
         ([], Some (errors_New "the uploaded file type is not permitted")),
       t', w') /\
    UploadFiles fair only_png
      (with_File no_file
         ([("file"%string, [text_part])] ++ [("more"%string, [png_part])]))
      "up" [false] empty_world
    = (Returns
         ([], Some (errors_New "the uploaded file type is not permitted")),
       t', w').
Proof.
  do 2 eexists. split; [vm_compute; reflexivity|].
  apply (UploadFiles_stops_at_failure fair only_png no_file
           [("file"%string, [text_part])] [("more"%string, [png_part])]
           "up" [false] empty_world).
  vm_compute. reflexivity.
Defined.

Lemma UploadFiles_records_witness :
  exists (fs : list UploadedFile) (t' : Tools) (w' : World),
    UploadFiles fair any_type (form [png_part; text_part]) "up" []
      empty_world
    = (Returns (fs, None), t', w') /\
    Forall2 (recorded true) fs (headers (form [png_part; text_part])).
Proof.
  do 3 eexists. split; [vm_compute; reflexivity|].
  apply (UploadFiles_records fair any_type (form [png_part; text_part]) "up"
           [] empty_world _
           (snd (fst (UploadFiles fair any_type (form [png_part; text_part])
                        "up" [] empty_world)))
           (snd (UploadFiles fair any_type (form [png_part; text_part]) "up"
                   [] empty_world))).
  vm_compute. reflexivity.
Defined.

Lemma UploadFiles_round_trip_witness :
  exists (fs : list UploadedFile) (t' : Tools) (w' : World),
    UploadFiles fair any_type (form [png_part; text_part]) "up" [false]
      empty_world
    = (Returns (fs, None), t', w') /\
    NoDup (map (path_of fair "up") fs) /\
    Forall2 (fun f hdr =>
               lookup_file (path_of fair "up" f) (files w')
               = Some (content hdr))
      fs (headers (form [png_part; text_part])).
Proof.
  do 3 eexists. split; [vm_compute; reflexivity|].
  assert (NoDup (map (path_of fair "up")
                   [mkUploadedFile "a.png" "a.png" 10;
                    mkUploadedFile "b.txt" "b.txt" 5])) as Hnd.
  { constructor; [simpl; intros [H|[]]; discriminate|].
    constructor; [simpl; tauto | constructor]. }
  split; [exact Hnd|].
  apply (UploadFiles_round_trip fair any_type (form [png_part; text_part])
           "up" [false] empty_world _
           (snd (fst (UploadFiles fair any_type (form [png_part; text_part])
                        "up" [false] empty_world)))
           (snd (UploadFiles fair any_type (form [png_part; text_part]) "up"
                   [false] empty_world))).
  - vm_compute. reflexivity.
  - exact Hnd.
Defined.

Lemma UploadFiles_never_deletes_witness :
  lookup_file "up/old.txt" (files used_world) <> None /\
  lookup_file "up/old.txt"
    (files (snd (UploadFiles fair only_png (form [png_part; text_part]) "up"
                   [false] used_world)))
  <> None.
Proof.
  split; [discriminate|].
  apply (UploadFiles_never_deletes fair only_png (form [png_part; text_part])
           "up" [false] used_world "up/old.txt").
  discriminate.
Defined.

Lemma upload_part_closes_stream_witness :
  fresh empty_world /\
  exists (w' : World),
    upload_part fair only_png "up" false text_part [] [] empty_world
    = (Returns
         ([], Some (errors_New "the uploaded file type is not permitted")),
       [], w') /\
    ~ In (next_handle empty_world) (open_handles w') /\
    (forall h, In h (open_handles empty_world) -> In h (open_handles w')) /\
    (forall (fs : list UploadedFile) (err : error),
       Returns
         (([] : list UploadedFile),
          Some (errors_New "the uploaded file type is not permitted"))
       = Returns (fs, Some err) ->
       copy_fault text_part = None ->
       open_handles w' = open_handles empty_world).
Proof.
  split; [constructor|].
  eexists. split; [vm_compute; reflexivity|].
  apply (upload_part_closes_stream fair only_png "up" false text_part [] []
           empty_world
           (Returns
              ([], Some (errors_New "the uploaded file type is not permitted")))
           []).
  - constructor.
  - vm_compute. reflexivity.
Defined.

Lemma upload_part_rejects_witness :
  fresh empty_world /\
  open_fault text_part = None /\ read_fault text_part = None /\
  content text_part <> [] /\
  admits fair only_png (DetectContentType fair (sniffed text_part)) = false /\
  AllowedFileTypes only_png <> [] /\
  exists w',
    upload_part fair only_png "up" true text_part [] [] empty_world
    = (Returns
         ([], Some (errors_New "the uploaded file type is not permitted")),
       [], w') /\
    files w' = files empty_world /\ drawn w' = drawn empty_world /\
    open_handles w' = open_handles empty_world.
Proof.
  split; [constructor|]. split; [reflexivity|]. split; [reflexivity|].
  split; [discriminate|]. split; [reflexivity|].
  apply (upload_part_rejects fair only_png "up" true text_part [] []
           empty_world).
  - constructor.
  - reflexivity.
  - reflexivity.
  - discriminate.
  - reflexivity.
Defined.

Lemma UploadOneFile_first_witness :
  exists (t' : Tools) (w' : World),
    UploadFiles fair any_type (form [png_part; text_part]) "up" [false]
      empty_world
    = (Returns ([mkUploadedFile "a.png" "a.png" 10;
                 mkUploadedFile "b.txt" "b.txt" 5], None), t', w') /\
    UploadOneFile fair any_type (form [png_part; text_part]) "up" [false]
      empty_world
    = (Returns (Some (mkUploadedFile "a.png" "a.png" 10), None), t', w').
Proof.
  do 2 eexists. split; [vm_compute; reflexivity|].
  apply (UploadOneFile_first fair any_type (form [png_part; text_part]) "up"
           [false] empty_world
           [mkUploadedFile "a.png" "a.png" 10;
            mkUploadedFile "b.txt" "b.txt" 5] None).
  - vm_compute. reflexivity.
  - right. discriminate.
Defined.

Lemma CreateDirIfNotExist_idempotent_witness :
  exists (w' : World),
    CreateDirIfNotExist fair "up/img" empty_world = (None, w') /\
    files w' = files empty_world /\
    CreateDirIfNotExist fair "up/img" w' = (None, w') /\
    Stat_IsNotExist fair "up/img" empty_world = true /\
    In "up/img"%string (dirs w') /\
    forall d, In d (parents "up/img") -> In d (dirs w').
Proof.
  eexists. split; [vm_compute; reflexivity|].
  destruct (CreateDirIfNotExist_idempotent fair "up/img" empty_world
              (snd (CreateDirIfNotExist fair "up/img" empty_world)) None
              eq_refl) as (Hfiles & _ & _ & Hagain & Hdirs).
  split; [exact Hfiles|]. split; [exact Hagain|].
  split; [reflexivity | exact (Hdirs eq_refl)].
Defined.

(** On a path that names a regular file, nothing is made. *)
Example CreateDirIfNotExist_on_a_file :
  CreateDirIfNotExist fair "up/old.txt" used_world = (None, used_world).
Proof. reflexivity. Qed.

Lemma upload_part_sniffs_padded_buffer_witness :
  open_fault text_part = None /\ read_fault text_part = None /\
  content text_part <> [] /\
  List.length (sniffed text_part) = 512%nat /\
  (admits fair only_text (DetectContentType fair (sniffed text_part)) = false
   /\ fst (fst (upload_part fair only_text "up" false text_part [] []
                  empty_world))
      = Returns
          ([], Some (errors_New "the uploaded file type is not permitted")))
  /\
  (admits fair any_type (DetectContentType fair (sniffed text_part)) = true
   /\ seek_fault text_part = None /\ copy_fault text_part = None
   /\ (forall path, Create_fault fair path = None)
   /\ exists f,
        fst (upload_part fair any_type "up" false text_part [] [] empty_world)
        = (Returns ([], None), [] ++ [f]) /\
        OriginalFileName f = Filename text_part /\
        FileSize f = Z.of_nat (List.length (content text_part))) /\
  (content empty_part = [] /\
   fst (fst (upload_part fair any_type "up" false empty_part [] []
               empty_world))
   = Returns ([], Some io_EOF)).
Proof.
  assert (content text_part <> []) as Hne by discriminate.
  destruct (upload_part_sniffs_padded_buffer fair only_text "up" false
              text_part [] [] empty_world eq_refl eq_refl)
    as [Hfull _].
  destruct (Hfull Hne) as (_ & Hlen & _ & Hreject & _).
  destruct (upload_part_sniffs_padded_buffer fair any_type "up" false
              text_part [] [] empty_world eq_refl eq_refl)
    as [Hfull' _].
  destruct (Hfull' Hne) as (_ & _ & _ & _ & Haccept & _).
  destruct (upload_part_sniffs_padded_buffer fair any_type "up" false
              empty_part [] [] empty_world eq_refl eq_refl)
    as [_ Hempty].
  split; [reflexivity|]. split; [reflexivity|]. split; [exact Hne|].
  split; [exact Hlen|]. split; [|split].
  - split; [reflexivity | exact (Hreject eq_refl)].
  - split; [reflexivity|]. split; [reflexivity|]. split; [reflexivity|].
    split; [intros path; reflexivity|].
    exact (Haccept eq_refl eq_refl eq_refl (fun _ => eq_refl)).
  - split; [reflexivity | exact (Hempty eq_refl)].
Defined.

End MoreRuns.

Section HttpRuns.

Import Http.

Lemma WriteJSON_sends_witness :
  text_Marshal "[1,2]" = inl (list_byte_of_string "[1,2]") /\
  status new_writer = None /\ write_fault new_writer = None /\
  exists w',
    WriteJSON string text_Marshal new_writer 201 "[1,2]"
      [[("Content-Type"%string, ["text/plain"%string]);
        ("X-Trace"%string, ["7"%string])]]
    = (None, w') /\
    status w' = Some 201 /\
    body w' = body new_writer ++ list_byte_of_string "[1,2]" /\
    Header_Get (sent w') "Content-Type" = "application/json"%string /\
    forall k, k <> "Content-Type"%string ->
      lookup (sent w') k
      = match lookup [("Content-Type"%string, ["text/plain"%string]);
                      ("X-Trace"%string, ["7"%string])] k with
        | Some v => Some v
        | None => lookup (header new_writer) k
        end.
Proof.
  split; [reflexivity|]. split; [reflexivity|]. split; [reflexivity|].
  apply (WriteJSON_sends string text_Marshal new_writer 201 "[1,2]"
           [[("Content-Type"%string, ["text/plain"%string]);
             ("X-Trace"%string, ["7"%string])]]
           (list_byte_of_string "[1,2]")); reflexivity.
Defined.


Lemma WriteJSON_keeps_sent_status_witness :
  status (mkResponseWriter [] (Some 200) [] [] None) = Some 200 /\
  status (snd (WriteJSON string text_Marshal
                 (mkResponseWriter [] (Some 200) [] [] None) 500 "[1,2]" []))
  = Some 200 /\
  sent (snd (WriteJSON string text_Marshal
               (mkResponseWriter [] (Some 200) [] [] None) 500 "[1,2]" []))
  = sent (mkResponseWriter [] (Some 200) [] [] None).
Proof.
  split; [reflexivity|].
  apply (WriteJSON_keeps_sent_status string text_Marshal
           (mkResponseWriter [] (Some 200) [] [] None) 500 200 "[1,2]" []).
  reflexivity.
Defined.

Lemma ErrorJSON_sends_witness :
  text_Marshal
    (text_boxed (mkJSONResponse string true
                   (Error (errors_New "some error")) None))
  = inl (list_byte_of_string
           (text_boxed (mkJSONResponse string true "some error" None))) /\
  status new_writer = None /\ write_fault new_writer = None /\
  exists w',
    ErrorJSON string text_Marshal text_boxed new_writer
      (errors_New "some error") []
    = (None, w') /\
    status w' = Some 400 /\
    body w'
    = body new_writer
        ++ list_byte_of_string
             (text_boxed (mkJSONResponse string true "some error" None)) /\
    Header_Get (sent w') "Content-Type" = "application/json"%string /\
    forall k, k <> "Content-Type"%string ->
      lookup (sent w') k = lookup (header new_writer) k.
Proof.
  split; [reflexivity|]. split; [reflexivity|]. split; [reflexivity|].
  apply (ErrorJSON_sends string text_Marshal text_boxed new_writer
           (errors_New "some error") []
           (list_byte_of_string
              (text_boxed (mkJSONResponse string true "some error" None))));
    reflexivity.
Defined.

Lemma PushJSONToRemote_returns_witness :
  PushJSONToRemote string text_Marshal dead_client no_fault "http://x/"
    "[1,2]" [echo_client] []
  = ((Some (mkResponse 200 (list_byte_of_string "[1,2]") true), 200, None),
     [mkRequest "POST" "http://x/"
        [("Content-Type"%string, ["application/json"%string])]
        (list_byte_of_string "[1,2]")]) /\
  exists r,
    Some (mkResponse 200 (list_byte_of_string "[1,2]") true) = Some r /\
    200 = StatusCode r /\ Body_closed r = true.
Proof.
  split; [reflexivity|].
  apply (PushJSONToRemote_returns string text_Marshal dead_client no_fault
           "http://x/" "[1,2]" [echo_client] []
           [mkRequest "POST" "http://x/"
              [("Content-Type"%string, ["application/json"%string])]
              (list_byte_of_string "[1,2]")]
           (Some (mkResponse 200 (list_byte_of_string "[1,2]") true)) 200
           None).
  reflexivity.
Defined.

Lemma PushJSONToRemote_requests_witness :
  PushJSONToRemote string text_Marshal dead_client no_fault "http://x/"
    "[1,2]" [] []
  = ((None, 0, Some (lib_error "connection refused")),
     [mkRequest "POST" "http://x/"
        [("Content-Type"%string, ["application/json"%string])]
        (list_byte_of_string "[1,2]")]) /\
  (([mkRequest "POST" "http://x/"
       [("Content-Type"%string, ["application/json"%string])]
       (list_byte_of_string "[1,2]")] = [] /\
    ((exists err, text_Marshal "[1,2]" = inr err) \/
     no_fault "POST" "http://x/" <> None)) \/
   (exists jsonData,
      text_Marshal "[1,2]" = inl jsonData /\
      no_fault "POST" "http://x/" = None /\
      [mkRequest "POST" "http://x/"
         [("Content-Type"%string, ["application/json"%string])]
         (list_byte_of_string "[1,2]")]
      = [] ++ [mkRequest "POST" "http://x/"
                 [("Content-Type"%string, ["application/json"%string])]
                 jsonData])).
Proof.
  split; [reflexivity|].
  apply (PushJSONToRemote_requests string text_Marshal dead_client no_fault
           "http://x/" "[1,2]" [] []
           [mkRequest "POST" "http://x/"
              [("Content-Type"%string, ["application/json"%string])]
              (list_byte_of_string "[1,2]")]
           (None, 0, Some (lib_error "connection refused"))).
  reflexivity.
Defined.

End HttpRuns.
